(** * Legal research snippets: the JSON-file server and the PostgreSQL server

    A shallow embedding of [legal_snippets_server.py] (module [Json]) and of
    [legal_snippets_postgres_server.py] (module [Pg]), followed by the
    properties of the tool operations.

    Conventions of the embedding.
    - Python [str] is [string]; [str.lower] is modelled on the ASCII letters.
    - Python [int] is [Z]; a [float] (similarity score, threshold) is a
      rational [Q].
    - A timestamp is a clock reading in [Z]; [datetime.now()] and SQL's
      [CURRENT_TIMESTAMP] read an external clock [clk], one reading per call.
    - A parameter that has a default value in the source is an [option]:
      [None] is the omitted argument.
    - A tool is a computation [M world A]: it threads the state of the outside
      world (the file on disk, the database table) and either returns a value
      or raises a Python exception. *)

From Stdlib Require Import ZArith QArith List String Ascii Bool Lia.
From Stdlib Require Import DecimalString Sorted Permutation Qabs Lqa.
From Stdlib Require OrderedTypeEx.
Import ListNotations.

Close Scope Q_scope.
Local Open Scope string_scope.
Local Open Scope Z_scope.

(* ================================================================== *)
(** * Python values and idioms shared by both servers                   *)
(* ================================================================== *)

Module Py.

Definition timestamp := Z.

(** Truthiness of a [str], of a [List[str]] and of [Optional] values. *)
Definition truthy_str (s : string) : bool := negb (String.eqb s "").

Definition truthy_list {A : Type} (l : list A) : bool :=
  match l with [] => false | _ :: _ => true end.

Definition truthy_opt_str (o : option string) : bool :=
  match o with Some s => truthy_str s | None => false end.

Definition truthy_opt_list {A : Type} (o : option (list A)) : bool :=
  match o with Some l => truthy_list l | None => false end.

(** [x or y] where [x] is an optional string. *)
Definition or_else (x : option string) (y : string) : string :=
  match x with
  | Some s => if truthy_str s then s else y
  | None => y
  end.

(** The value of a parameter that has a default. *)
Definition dflt {A : Type} (d : A) (o : option A) : A :=
  match o with Some a => a | None => d end.

(** [str(n)] for an [int]. *)
Definition str_int (z : Z) : string := NilZero.string_of_int (Z.to_int z).

(** [c.lower()] on one character, [s.lower()] on a string. *)
Definition lower_ascii (c : ascii) : ascii :=
  let n := nat_of_ascii c in
  if (Nat.leb 65 n && Nat.leb n 90)%bool then ascii_of_nat (n + 32) else c.

Fixpoint lower (s : string) : string :=
  match s with
  | EmptyString => EmptyString
  | String c t => String (lower_ascii c) (lower t)
  end.

(** [needle in hay] for strings. *)
Fixpoint contains (needle hay : string) : bool :=
  String.prefix needle hay ||
  match hay with
  | EmptyString => false
  | String _ t => contains needle t
  end.

(** [x in l] for a list of strings. *)
Definition mem (x : string) (l : list string) : bool :=
  existsb (String.eqb x) l.

(** [sep.join(l)]. *)
Fixpoint join (sep : string) (l : list string) : string :=
  match l with
  | [] => ""
  | [x] => x
  | x :: rest => x ++ sep ++ join sep rest
  end.

(** [c * n] for a one-character string. *)
Fixpoint repeat_str (c : string) (n : nat) : string :=
  match n with O => "" | S k => c ++ repeat_str c k end.

Definition newline : string := String (ascii_of_nat 10) EmptyString.

(** [sorted(set(l))]: ascending, duplicates dropped. *)
Fixpoint insert_uniq (x : string) (l : list string) : list string :=
  match l with
  | [] => [x]
  | y :: rest =>
      match String.compare x y with
      | Lt => x :: y :: rest
      | Eq => y :: rest
      | Gt => y :: insert_uniq x rest
      end
  end.

Definition sorted_set (l : list string) : list string :=
  fold_right insert_uniq [] l.

(** Exceptions the two servers can meet. *)
Inductive exn : Type :=
| JSONDecodeError (msg : string)
| RuntimeError (msg : string)
| OSError (msg : string)
| PostgresError (msg : string).

(** [str(e)]. *)
Definition str_exn (e : exn) : string :=
  match e with
  | JSONDecodeError m | RuntimeError m | OSError m | PostgresError m => m
  end.

(** The outcome of running a piece of Python. *)
Inductive outcome (A : Type) : Type :=
| Returns (a : A)
| Raises (e : exn).
Arguments Returns {A} a.
Arguments Raises {A} e.

(** State of the outside world [W] threaded through, plus exceptions. The
    world survives an exception. *)
Definition M (W A : Type) : Type := W -> outcome A * W.

Definition ret {W A : Type} (a : A) : M W A := fun w => (Returns a, w).

Definition bind {W A B : Type} (m : M W A) (k : A -> M W B) : M W B :=
  fun w =>
    match m w with
    | (Returns a, w') => k a w'
    | (Raises e, w') => (Raises e, w')
    end.

(** [try: body  except Exception as e: handler(e)]. *)
Definition try_except {W A : Type} (body : M W A) (handler : exn -> M W A)
  : M W A :=
  fun w =>
    match body w with
    | (Returns a, w') => (Returns a, w')
    | (Raises e, w') => handler e w'
    end.

(** The operation comes back to its caller with a value on every world. *)
Definition never_raises {W A : Type} (m : M W A) : Prop :=
  forall w, exists a w', m w = (Returns a, w').

(** The dict with a [status] field returned by the mutating tools. *)
Record reply : Type := {
  status : string;
  snippet_id : option Z;
  message : string
}.

End Py.

Import Py.

Declare Scope py_scope.
Notation "x <- c ;; k" := (bind c (fun x => k))
  (at level 61, c at next level, right associativity) : py_scope.
Notation "c ;;; k" := (bind c (fun _ => k))
  (at level 61, right associativity) : py_scope.
Local Open Scope py_scope.

(* ================================================================== *)
(** * The JSON-file server ([legal_snippets_server.py])                 *)
(* ================================================================== *)

Module Json.

(** One entry of the ["snippets"] list. *)
Record snippet : Type := {
  id : Z;
  citation : string;
  key_language : string;
  tags : list string;
  context : string;
  case_type : string;
  created_at : timestamp;
  updated_at : timestamp
}.

(** The document [{"snippets": [...], "next_id": n}]. *)
Record data : Type := {
  snippets : list snippet;
  next_id : Z
}.

(** [legal_snippets.json] on disk: absent, holding a document, or holding
    text that [json.load] rejects. *)
Inductive file : Type :=
| Missing
| Stored (d : data)
| Corrupt.

Record world : Type := {
  disk : file;
  reads : nat          (* clock readings taken so far *)
}.

Section Server.

Variable clk : nat -> timestamp.
(** The ISO text of a timestamp, as the file stores it. *)
Variable isoformat : timestamp -> string.
(** [json.dumps(data["snippets"], indent=2)] *)
Variable json_dumps : list snippet -> string.

(** [datetime.now().isoformat()] *)
Definition now : M world timestamp :=
  fun w => (Returns (clk (reads w)), {| disk := disk w; reads := S (reads w) |}).

Definition load_snippets : M world data :=
  fun w =>
    match disk w with
    | Missing => (Returns {| snippets := []; next_id := 1 |}, w)
    | Stored d => (Returns d, w)
    | Corrupt => (Raises (JSONDecodeError "Expecting value"), w)
    end.

Definition save_snippets (d : data) : M world unit :=
  fun w => (Returns tt, {| disk := Stored d; reads := reads w |}).

Definition create_snippet (citation key_language : string) (tags : list string)
    (context case_type : option string) : M world reply :=
  let context := dflt "" context in
  let case_type := dflt "civil" case_type in
  data <- load_snippets ;;
  t_created <- now ;;
  t_updated <- now ;;
  let snippet :=
    {| id := next_id data;
       citation := citation;
       key_language := key_language;
       tags := tags;
       context := context;
       case_type := case_type;
       created_at := t_created;
       updated_at := t_updated |} in
  let data :=
    {| snippets := (snippets data ++ [snippet])%list;
       next_id := next_id data + 1 |} in
  save_snippets data ;;;
  ret {| status := "success";
         snippet_id := Some (id snippet);
         message := "Created snippet " ++ str_int (id snippet)
                    ++ " for " ++ citation |}.

(** The three-way test in the body of the search loop. *)
Definition text_hit (query : string) (s : snippet) : bool :=
  contains (lower query) (lower (citation s))
  || contains (lower query) (lower (key_language s))
  || contains (lower query) (lower (context s)).

Definition tag_hit (tags : list string) (s : snippet) : bool :=
  existsb (fun tag => mem tag (Json.tags s)) tags.

Definition selected (query : string) (tags : option (list string))
    (s : snippet) : bool :=
  if truthy_str query && text_hit query s then true
  else if truthy_opt_list tags && tag_hit (dflt [] tags) s then true
  else if negb (truthy_str query) && negb (truthy_opt_list tags) then true
  else false.

Definition search_snippets (query : option string)
    (tags : option (list string)) : M world (list snippet) :=
  let query := dflt "" query in
  data <- load_snippets ;;
  ret (filter (selected query tags) (snippets data)).

Definition get_snippet (snippet_id : Z) : M world (option snippet) :=
  data <- load_snippets ;;
  ret (find (fun s => id s =? snippet_id) (snippets data)).

(** The assignments guarded by [if citation: ...] and so on. *)
Definition assign (citation key_language : option string)
    (tags : option (list string)) (context case_type : option string)
    (t : timestamp) (s : snippet) : snippet :=
  {| id := id s;
     citation := or_else citation (Json.citation s);
     key_language := or_else key_language (Json.key_language s);
     tags := if truthy_opt_list tags then dflt [] tags else Json.tags s;
     context := or_else context (Json.context s);
     case_type := or_else case_type (Json.case_type s);
     created_at := created_at s;
     updated_at := t |}.

(** The loop of [update_snippet]: the first snippet that carries the id is
    changed in place; [None] when the loop runs to its end. *)
Fixpoint update_loop (snippet_id : Z) (citation key_language : option string)
    (tags : option (list string)) (context case_type : option string)
    (l : list snippet) : M world (option (list snippet)) :=
  match l with
  | [] => ret None
  | s :: rest =>
      if id s =? snippet_id then
        t <- now ;;
        ret (Some (assign citation key_language tags context case_type t s
                   :: rest))
      else
        r <- update_loop snippet_id citation key_language tags context
                         case_type rest ;;
        ret (option_map (cons s) r)
  end.

Definition update_snippet (snippet_id : Z) (citation key_language : option string)
    (tags : option (list string)) (context case_type : option string)
    : M world reply :=
  data <- load_snippets ;;
  r <- update_loop snippet_id citation key_language tags context case_type
                   (snippets data) ;;
  match r with
  | Some l =>
      save_snippets {| snippets := l; next_id := next_id data |} ;;;
      ret {| status := "success"; snippet_id := None;
             message := "Updated snippet " ++ str_int snippet_id |}
  | None =>
      ret {| status := "error"; snippet_id := None;
             message := "Snippet " ++ str_int snippet_id ++ " not found" |}
  end.

Definition delete_snippet (snippet_id : Z) : M world reply :=
  data <- load_snippets ;;
  let original_count := List.length (snippets data) in
  let kept := filter (fun s => negb (id s =? snippet_id)) (snippets data) in
  if (List.length kept <? original_count)%nat then
    save_snippets {| snippets := kept; next_id := next_id data |} ;;;
    ret {| status := "success"; snippet_id := None;
           message := "Deleted snippet " ++ str_int snippet_id |}
  else
    ret {| status := "error"; snippet_id := None;
           message := "Snippet " ++ str_int snippet_id ++ " not found" |}.

Definition list_tags : M world (list string) :=
  data <- load_snippets ;;
  ret (sorted_set (flat_map tags (snippets data))).

(** The lines written for one snippet by the text format. *)
Definition export_text (s : snippet) : string :=
  "Citation: " ++ citation s ++ newline
  ++ "Key Language: " ++ key_language s ++ newline
  ++ "Tags: " ++ join ", " (tags s) ++ newline
  ++ (if truthy_str (context s)
      then "Context: " ++ context s ++ newline else "")
  ++ "Created: " ++ isoformat (created_at s) ++ newline
  ++ repeat_str "-" 50 ++ newline.

Definition export_snippets (format : option string) : M world string :=
  let format := dflt "json" format in
  data <- load_snippets ;;
  if String.eqb format "text" then
    ret (join "" (map export_text (snippets data)))
  else
    ret (json_dumps (snippets data)).

(** A history of creations and deletions, run from a world; the ids handed
    out by the creations are collected in order. *)
Inductive op : Type :=
| Create (citation key_language : string) (tags : list string)
         (context case_type : option string)
| Delete (snippet_id : Z).

Fixpoint run_ops (ops : list op) (w : world) : list Z * world :=
  match ops with
  | [] => ([], w)
  | Create ci kl tg cx ct :: rest =>
      match create_snippet ci kl tg cx ct w with
      | (Returns r, w') =>
          let (ids, w'') := run_ops rest w' in
          (match snippet_id r with Some i => i :: ids | None => ids end, w'')
      | (Raises _, w') => run_ops rest w'
      end
  | Delete i :: rest => run_ops rest (snd (delete_snippet i w))
  end.

(** ** The tool surface as one dispatcher *)

Inductive call : Type :=
| CreateSnippet (citation key_language : string) (tags : list string)
                (context case_type : option string)
| SearchSnippets (query : option string) (tags : option (list string))
| GetSnippet (snippet_id : Z)
| UpdateSnippet (snippet_id : Z) (citation key_language : option string)
                (tags : option (list string)) (context case_type : option string)
| DeleteSnippet (snippet_id : Z)
| ListTags
| ExportSnippets (format : option string).

Inductive value : Type :=
| VReply (r : reply)
| VSnippets (l : list snippet)
| VSnippet (o : option snippet)
| VStrings (l : list string)
| VString (s : string).

Definition lift {A : Type} (inj : A -> value) (m : M world A) : M world value :=
  a <- m ;; ret (inj a).

Definition run (c : call) : M world value :=
  match c with
  | CreateSnippet ci kl tg cx ct => lift VReply (create_snippet ci kl tg cx ct)
  | SearchSnippets q tg => lift VSnippets (search_snippets q tg)
  | GetSnippet i => lift VSnippet (get_snippet i)
  | UpdateSnippet i ci kl tg cx ct =>
      lift VReply (update_snippet i ci kl tg cx ct)
  | DeleteSnippet i => lift VReply (delete_snippet i)
  | ListTags => lift VStrings list_tags
  | ExportSnippets f => lift VString (export_snippets f)
  end.

End Server.

(** The document a tool loads from this world. *)
Definition document (w : world) : data :=
  match disk w with
  | Stored d => d
  | Missing | Corrupt => {| snippets := []; next_id := 1 |}
  end.

Definition readable (w : world) : bool :=
  match disk w with Corrupt => false | Missing | Stored _ => true end.

(** Every stored id has been handed out by the counter, once. *)
Definition well_formed (w : world) : Prop :=
  readable w = true
  /\ NoDup (map id (snippets (document w)))
  /\ Forall (fun s => id s < next_id (document w)) (snippets (document w)).

End Json.

(* ================================================================== *)
(** * The PostgreSQL server ([legal_snippets_postgres_server.py])       *)
(* ================================================================== *)

Module Pg.

(** A [vector(384)] value. *)
Definition embedding := list Q.

(** One row of the table [legal_snippets]. *)
Record row : Type := {
  id : Z;
  citation : string;
  key_language : string;
  tags : list string;
  context : string;
  case_type : string;
  created_at : timestamp;
  updated_at : timestamp;
  citation_embedding : embedding;
  key_language_embedding : embedding;
  combined_embedding : embedding
}.

(** The database, the two module-level globals and the clock. *)
Record world : Type := {
  table : list row;          (* the rows of legal_snippets *)
  next_serial : Z;           (* the sequence behind [id SERIAL] *)
  reads : nat;               (* clock readings taken so far *)
  reachable : bool;          (* the server accepts connections *)
  model_available : bool;    (* the sentence-transformer model can be loaded *)
  pool : bool;               (* [_db_pool is not None] *)
  model : bool               (* [embedding_service.model is not None] *)
}.

(** The dicts handed back to the caller: the selected columns of a row, with
    [similarity_score] where the query computes it. *)
Module Dict.
Record t : Type := {
  id : Z;
  citation : string;
  key_language : string;
  tags : list string;
  context : string;
  case_type : string;
  created_at : option timestamp;
  updated_at : option timestamp;
  similarity_score : option Q
}.
End Dict.

(** An element of a returned list: a row dict or [{"error": msg}]. *)
Inductive entry : Type :=
| Row (d : Dict.t)
| Error (msg : string).

(** The three embeddings built by [generate_embeddings]. *)
Record embeddings : Type := {
  e_citation : embedding;
  e_key_language : embedding;
  e_combined : embedding
}.

(** ** SQL operators used by the queries *)

(** [s LIKE p]: [%] matches any run of characters, [_] any one character and
    a backslash takes the next pattern character literally. *)
Fixpoint like (p s : string) {struct p} : bool :=
  match p with
  | EmptyString => match s with EmptyString => true | String _ _ => false end
  | String c p' =>
      if Ascii.eqb c "%" then
        (fix any_run (s : string) : bool :=
           like p' s ||
           match s with EmptyString => false | String _ s' => any_run s' end) s
      else if Ascii.eqb c "_" then
        match s with EmptyString => false | String _ s' => like p' s' end
      else if Ascii.eqb c "\" then
        match p' with
        | EmptyString => false
        | String e p'' =>
            match s with
            | EmptyString => false
            | String x s' => Ascii.eqb e x && like p'' s'
            end
        end
      else
        match s with
        | EmptyString => false
        | String x s' => Ascii.eqb c x && like p' s'
        end
  end.

(** [s ILIKE p]: [LIKE] on the lower-cased operands. *)
Definition ilike (s p : string) : bool := like (lower p) (lower s).

(** [a && b] on [text[]]: the arrays share an element. *)
Definition overlap (a b : list string) : bool :=
  existsb (fun x => mem x b) a.

(** [ORDER BY]: a stable insertion sort; [le x y] says that [x] may come
    before [y]. *)
Fixpoint insert_by {A : Type} (le : A -> A -> bool) (x : A) (l : list A)
  : list A :=
  match l with
  | [] => [x]
  | y :: rest => if le x y then x :: y :: rest else y :: insert_by le x rest
  end.

Definition order_by {A : Type} (le : A -> A -> bool) (l : list A) : list A :=
  fold_right (insert_by le) [] l.

(** [LIMIT n]: a negative count is rejected by the server. *)
Definition limit_rows {A : Type} (n : Z) (l : list A) : outcome (list A) :=
  if n <? 0 then Raises (PostgresError "LIMIT must not be negative")
  else Returns (firstn (Z.to_nat n) l).

(** [COALESCE($k, column)]. *)
Definition coalesce {A : Type} (x : option A) (column : A) : A :=
  match x with Some a => a | None => column end.

Section Server.

Variable clk : nat -> timestamp.
(** [SentenceTransformer.encode(text).tolist()] of the loaded model. *)
Variable encode : string -> embedding.
(** pgvector's [<=>], the cosine distance. *)
Variable cosine_distance : embedding -> embedding -> Q.
(** [json.dumps(snippets, indent=2)], timestamps in ISO format. *)
Variable json_dumps : list Dict.t -> string.
(** [str(datetime)]. *)
Variable str_datetime : timestamp -> string.

(** ** Connection pool and embedding model *)

Definition set_pool (b : bool) (w : world) : world :=
  {| table := table w; next_serial := next_serial w; reads := reads w;
     reachable := reachable w; model_available := model_available w;
     pool := b; model := model w |}.

Definition set_model (b : bool) (w : world) : world :=
  {| table := table w; next_serial := next_serial w; reads := reads w;
     reachable := reachable w; model_available := model_available w;
     pool := pool w; model := b |}.

Definition set_table (t : list row) (w : world) : world :=
  {| table := t; next_serial := next_serial w; reads := reads w;
     reachable := reachable w; model_available := model_available w;
     pool := pool w; model := model w |}.

(** [EmbeddingService.initialize] *)
Definition initialize_model : M world unit :=
  fun w =>
    if model w then (Returns tt, w)
    else if model_available w then (Returns tt, set_model true w)
    else (Raises (OSError "cannot load all-MiniLM-L6-v2"), w).

(** [EmbeddingService.encode_text] *)
Definition encode_text (text : string) : M world embedding :=
  fun w =>
    if model w then (Returns (encode text), w)
    else (Raises (RuntimeError "Embedding model not initialized"), w).

(** [asyncpg.create_pool(DATABASE_URL)] stored in [_db_pool]. *)
Definition create_pool : M world unit :=
  fun w =>
    if reachable w then (Returns tt, set_pool true w)
    else (Raises (OSError "connection refused"), w).

(** [_db_pool.acquire()] *)
Definition acquire : M world unit :=
  fun w =>
    if reachable w then (Returns tt, w)
    else (Raises (OSError "connection refused"), w).

(** [initialize_db]: the [CREATE ... IF NOT EXISTS] statements leave an
    existing table as it is. *)
Definition initialize_db : M world unit :=
  create_pool ;;;
  initialize_model ;;;
  acquire.

(** Entering [async with get_db() as conn]. *)
Definition get_db : M world unit :=
  fun w => ((if pool w then ret tt else initialize_db) ;;; acquire) w.

(** [CURRENT_TIMESTAMP] of a statement. *)
Definition current_timestamp : M world timestamp :=
  fun w =>
    (Returns (clk (reads w)),
     {| table := table w; next_serial := next_serial w; reads := S (reads w);
        reachable := reachable w; model_available := model_available w;
        pool := pool w; model := model w |}).

Definition generate_embeddings (citation key_language context : string)
  : M world embeddings :=
  citation_emb <- encode_text citation ;;
  key_language_emb <- encode_text key_language ;;
  let combined_text :=
    "Citation: " ++ citation ++ ". Key Language: " ++ key_language in
  let combined_text :=
    if truthy_str context then combined_text ++ " Context: " ++ context
    else combined_text in
  combined_emb <- encode_text combined_text ;;
  ret {| e_citation := citation_emb;
         e_key_language := key_language_emb;
         e_combined := combined_emb |}.

(** ** The SQL statements *)

(** [INSERT INTO legal_snippets (...) VALUES (...) RETURNING id] *)
Definition insert_returning_id (citation key_language : string)
    (tags : list string) (context case_type : string) (e : embeddings)
  : M world Z :=
  ts <- current_timestamp ;;
  fun w =>
    let r :=
      {| id := next_serial w;
         citation := citation;
         key_language := key_language;
         tags := tags;
         context := context;
         case_type := case_type;
         created_at := ts;
         updated_at := ts;
         citation_embedding := e_citation e;
         key_language_embedding := e_key_language e;
         combined_embedding := e_combined e |} in
    (Returns (id r),
     {| table := (table w ++ [r])%list; next_serial := next_serial w + 1;
        reads := reads w; reachable := reachable w;
        model_available := model_available w;
        pool := pool w; model := model w |}).

(** The columns [id, citation, key_language, tags, context, case_type,
    created_at, updated_at]. *)
Definition columns8 (r : row) : Dict.t :=
  {| Dict.id := id r;
     Dict.citation := citation r;
     Dict.key_language := key_language r;
     Dict.tags := tags r;
     Dict.context := context r;
     Dict.case_type := case_type r;
     Dict.created_at := Some (created_at r);
     Dict.updated_at := Some (updated_at r);
     Dict.similarity_score := None |}.

(** The same with [1 - (combined_embedding <=> $1) as similarity_score]. *)
Definition similarity (q : embedding) (r : row) : Q :=
  (1 - cosine_distance (combined_embedding r) q)%Q.

Definition columns8_score (q : embedding) (r : row) : Dict.t :=
  {| Dict.id := id r;
     Dict.citation := citation r;
     Dict.key_language := key_language r;
     Dict.tags := tags r;
     Dict.context := context r;
     Dict.case_type := case_type r;
     Dict.created_at := Some (created_at r);
     Dict.updated_at := Some (updated_at r);
     Dict.similarity_score := Some (similarity q r) |}.

(** [id, citation, key_language, tags, context, case_type] and the score. *)
Definition columns6_score (q : embedding) (r : row) : Dict.t :=
  {| Dict.id := id r;
     Dict.citation := citation r;
     Dict.key_language := key_language r;
     Dict.tags := tags r;
     Dict.context := context r;
     Dict.case_type := case_type r;
     Dict.created_at := None;
     Dict.updated_at := None;
     Dict.similarity_score := Some (similarity q r) |}.

(** [ORDER BY updated_at DESC], [ORDER BY created_at] and
    [ORDER BY combined_embedding <=> $1]. *)
Definition by_updated_desc (x y : row) : bool := updated_at y <=? updated_at x.

Definition by_created (x y : row) : bool := created_at x <=? created_at y.

Definition by_distance (q : embedding) (x y : row) : bool :=
  Qle_bool (cosine_distance (combined_embedding x) q)
           (cosine_distance (combined_embedding y) q).

(** [citation ILIKE $1 OR key_language ILIKE $1 OR context ILIKE $1] *)
Definition text_cond (pattern : string) (r : row) : bool :=
  ilike (citation r) pattern
  || ilike (key_language r) pattern
  || ilike (context r) pattern.

(** [1 - (combined_embedding <=> $1) >= $k] *)
Definition score_cond (q : embedding) (threshold : Q) (r : row) : bool :=
  Qle_bool threshold (similarity q r).

(** [conn.fetch]: the rows that satisfy [cond], ordered by [le]. *)
Definition fetch (cond : row -> bool) (le : row -> row -> bool)
  : M world (list row) :=
  fun w => (Returns (order_by le (filter cond (table w))), w).

(** [conn.fetch] of a query that ends in [LIMIT n]. *)
Definition fetch_limit (cond : row -> bool) (le : row -> row -> bool) (n : Z)
  : M world (list row) :=
  fun w => (limit_rows n (order_by le (filter cond (table w))), w).

(** [conn.fetchrow(... WHERE id = $1)] *)
Definition fetchrow_by_id (snippet_id : Z) : M world (option row) :=
  fun w => (Returns (find (fun r => id r =? snippet_id) (table w)), w).

(** [UPDATE legal_snippets SET ... WHERE id = $k]; [set] receives the
    statement's [CURRENT_TIMESTAMP]. *)
Definition update_by_id (snippet_id : Z) (set : timestamp -> row -> row)
  : M world unit :=
  ts <- current_timestamp ;;
  fun w =>
    (Returns tt,
     set_table
       (map (fun r => if id r =? snippet_id then set ts r else r) (table w)) w).

(** [conn.execute("DELETE FROM legal_snippets WHERE id = $1")]: the command
    tag counts the deleted rows. *)
Definition delete_by_id (snippet_id : Z) : M world string :=
  fun w =>
    let gone := filter (fun r => id r =? snippet_id) (table w) in
    (Returns ("DELETE " ++ str_int (Z.of_nat (List.length gone))),
     set_table (filter (fun r => negb (id r =? snippet_id)) (table w)) w).

(** ** The tools *)

Definition create_snippet_body (citation key_language : string)
    (tags : list string) (context case_type : string) : M world reply :=
  embeddings <- generate_embeddings citation key_language context ;;
  get_db ;;;
  snippet_id <- insert_returning_id citation key_language tags context
                                    case_type embeddings ;;
  ret {| status := "success";
         snippet_id := Some snippet_id;
         message := "Created snippet " ++ str_int snippet_id
                    ++ " for " ++ citation |}.

Definition create_snippet_failed (e : exn) : reply :=
  {| status := "error"; snippet_id := None;
     message := "Failed to create snippet: " ++ str_exn e |}.

Definition create_snippet (citation key_language : string) (tags : list string)
    (context case_type : option string) : M world reply :=
  let context := dflt "" context in
  let case_type := dflt "civil" case_type in
  try_except
    (create_snippet_body citation key_language tags context case_type)
    (fun e => ret (create_snippet_failed e)).

Definition search_snippets_body (query : string) (tags : option (list string))
  : M world (list entry) :=
  get_db ;;;
  rows <-
    (if truthy_str query && truthy_opt_list tags then
       fetch (fun r => text_cond ("%" ++ query ++ "%") r
                       && overlap (Pg.tags r) (dflt [] tags))
             by_updated_desc
     else if truthy_str query then
       fetch (text_cond ("%" ++ query ++ "%")) by_updated_desc
     else if truthy_opt_list tags then
       fetch (fun r => overlap (Pg.tags r) (dflt [] tags)) by_updated_desc
     else
       fetch (fun _ => true) by_updated_desc) ;;
  ret (map (fun r => Row (columns8 r)) rows).

Definition search_snippets_failed (e : exn) : list entry :=
  [Error ("Search failed: " ++ str_exn e)].

Definition search_snippets (query : option string)
    (tags : option (list string)) : M world (list entry) :=
  let query := dflt "" query in
  try_except (search_snippets_body query tags)
             (fun e => ret (search_snippets_failed e)).

Definition semantic_search_body (query : string) (limit : Z)
    (similarity_threshold : Q) (tags : option (list string))
  : M world (list entry) :=
  query_embedding <- encode_text query ;;
  get_db ;;;
  rows <-
    (if truthy_opt_list tags then
       fetch_limit
         (fun r => overlap (Pg.tags r) (dflt [] tags)
                   && score_cond query_embedding similarity_threshold r)
         (by_distance query_embedding) limit
     else
       fetch_limit (score_cond query_embedding similarity_threshold)
                   (by_distance query_embedding) limit) ;;
  ret (map (fun r => Row (columns8_score query_embedding r)) rows).

Definition semantic_search_failed (e : exn) : list entry :=
  [Error ("Semantic search failed: " ++ str_exn e)].

Definition semantic_search (query : string) (limit : option Z)
    (similarity_threshold : option Q) (tags : option (list string))
  : M world (list entry) :=
  let limit := dflt 10 limit in
  let similarity_threshold := dflt (7 # 10)%Q similarity_threshold in
  try_except (semantic_search_body query limit similarity_threshold tags)
             (fun e => ret (semantic_search_failed e)).

Definition get_snippet_body (snippet_id : Z) : M world (option entry) :=
  get_db ;;;
  row <- fetchrow_by_id snippet_id ;;
  ret (option_map (fun r => Row (columns8 r)) row).

Definition get_snippet_failed (e : exn) : option entry :=
  Some (Error ("Failed to get snippet: " ++ str_exn e)).

Definition get_snippet (snippet_id : Z) : M world (option entry) :=
  try_except (get_snippet_body snippet_id)
             (fun e => ret (get_snippet_failed e)).

(** The [SET] lists of the two [UPDATE] statements of [update_snippet]. *)
Definition set_text_and_metadata (new_citation new_key_language : string)
    (tags : option (list string)) (new_context : string)
    (case_type : option string) (e : embeddings) (ts : timestamp) (r : row)
  : row :=
  {| id := id r;
     citation := new_citation;
     key_language := new_key_language;
     tags := coalesce tags (Pg.tags r);
     context := new_context;
     case_type := coalesce case_type (Pg.case_type r);
     created_at := created_at r;
     updated_at := ts;
     citation_embedding := e_citation e;
     key_language_embedding := e_key_language e;
     combined_embedding := e_combined e |}.

Definition set_metadata (tags : option (list string))
    (case_type : option string) (ts : timestamp) (r : row) : row :=
  {| id := id r;
     citation := citation r;
     key_language := key_language r;
     tags := coalesce tags (Pg.tags r);
     context := context r;
     case_type := coalesce case_type (Pg.case_type r);
     created_at := created_at r;
     updated_at := ts;
     citation_embedding := citation_embedding r;
     key_language_embedding := key_language_embedding r;
     combined_embedding := combined_embedding r |}.

Definition update_snippet_body (snippet_id : Z)
    (citation key_language : option string) (tags : option (list string))
    (context case_type : option string) : M world reply :=
  get_db ;;;
  current <- fetchrow_by_id snippet_id ;;
  match current with
  | None =>
      ret {| status := "error"; snippet_id := None;
             message := "Snippet " ++ str_int snippet_id ++ " not found" |}
  | Some current =>
      let new_citation := or_else citation (Pg.citation current) in
      let new_key_language := or_else key_language (Pg.key_language current) in
      let new_context := or_else context (Pg.context current) in
      (if truthy_opt_str citation || truthy_opt_str key_language
          || truthy_opt_str context then
         embeddings <- generate_embeddings new_citation new_key_language
                                           new_context ;;
         update_by_id snippet_id
           (set_text_and_metadata new_citation new_key_language tags
                                  new_context case_type embeddings)
       else
         update_by_id snippet_id (set_metadata tags case_type)) ;;;
      ret {| status := "success"; snippet_id := None;
             message := "Updated snippet " ++ str_int snippet_id |}
  end.

Definition update_snippet_failed (e : exn) : reply :=
  {| status := "error"; snippet_id := None;
     message := "Failed to update snippet: " ++ str_exn e |}.

Definition update_snippet (snippet_id : Z)
    (citation key_language : option string) (tags : option (list string))
    (context case_type : option string) : M world reply :=
  try_except
    (update_snippet_body snippet_id citation key_language tags context
                         case_type)
    (fun e => ret (update_snippet_failed e)).

Definition delete_snippet_body (snippet_id : Z) : M world reply :=
  get_db ;;;
  result <- delete_by_id snippet_id ;;
  if String.eqb result "DELETE 1" then
    ret {| status := "success"; snippet_id := None;
           message := "Deleted snippet " ++ str_int snippet_id |}
  else
    ret {| status := "error"; snippet_id := None;
           message := "Snippet " ++ str_int snippet_id ++ " not found" |}.

Definition delete_snippet_failed (e : exn) : reply :=
  {| status := "error"; snippet_id := None;
     message := "Failed to delete snippet: " ++ str_exn e |}.

Definition delete_snippet (snippet_id : Z) : M world reply :=
  try_except (delete_snippet_body snippet_id)
             (fun e => ret (delete_snippet_failed e)).

(** [SELECT DISTINCT unnest(tags) as tag FROM legal_snippets ORDER BY tag] *)
Definition list_tags_body : M world (list string) :=
  get_db ;;;
  fun w => (Returns (sorted_set (flat_map tags (table w))), w).

Definition list_tags_failed (e : exn) : list string :=
  ["Error: " ++ str_exn e].

Definition list_tags : M world (list string) :=
  try_except list_tags_body (fun e => ret (list_tags_failed e)).

(** The lines written for one row by the text format. *)
Definition export_text (r : row) : string :=
  "ID: " ++ str_int (id r) ++ newline
  ++ "Citation: " ++ citation r ++ newline
  ++ "Key Language: " ++ key_language r ++ newline
  ++ "Tags: " ++ join ", " (tags r) ++ newline
  ++ (if truthy_str (context r)
      then "Context: " ++ context r ++ newline else "")
  ++ "Case Type: " ++ case_type r ++ newline
  ++ "Created: " ++ str_datetime (created_at r) ++ newline
  ++ repeat_str "-" 50 ++ newline.

Definition export_snippets_body (format : string) : M world string :=
  get_db ;;;
  rows <- fetch (fun _ => true) by_created ;;
  if String.eqb format "text" then
    ret (join "" (map export_text rows))
  else
    ret (json_dumps (map columns8 rows)).

Definition export_snippets_failed (e : exn) : string :=
  "Export failed: " ++ str_exn e.

Definition export_snippets (format : option string) : M world string :=
  let format := dflt "json" format in
  try_except (export_snippets_body format)
             (fun e => ret (export_snippets_failed e)).

Definition find_similar_snippets_body (snippet_id limit : Z)
  : M world (list entry) :=
  get_db ;;;
  ref_row <- fetchrow_by_id snippet_id ;;
  match ref_row with
  | None => ret [Error ("Snippet " ++ str_int snippet_id ++ " not found")]
  | Some ref_row =>
      rows <- fetch_limit (fun r => negb (id r =? snippet_id))
                          (by_distance (combined_embedding ref_row)) limit ;;
      ret (map (fun r => Row (columns6_score (combined_embedding ref_row) r))
               rows)
  end.

Definition find_similar_snippets_failed (e : exn) : list entry :=
  [Error ("Failed to find similar snippets: " ++ str_exn e)].

Definition find_similar_snippets (snippet_id : Z) (limit : option Z)
  : M world (list entry) :=
  let limit := dflt 5 limit in
  try_except (find_similar_snippets_body snippet_id limit)
             (fun e => ret (find_similar_snippets_failed e)).

(** ** The tool surface as one dispatcher *)

Inductive call : Type :=
| CreateSnippet (citation key_language : string) (tags : list string)
                (context case_type : option string)
| SearchSnippets (query : option string) (tags : option (list string))
| SemanticSearch (query : string) (limit : option Z)
                 (similarity_threshold : option Q) (tags : option (list string))
| GetSnippet (snippet_id : Z)
| UpdateSnippet (snippet_id : Z) (citation key_language : option string)
                (tags : option (list string)) (context case_type : option string)
| DeleteSnippet (snippet_id : Z)
| ListTags
| ExportSnippets (format : option string)
| FindSimilarSnippets (snippet_id : Z) (limit : option Z).

(** What a tool hands back: a status dict, a list of dicts, one optional
    dict, a list of strings or a text blob. *)
Inductive value : Type :=
| VReply (r : reply)
| VEntries (l : list entry)
| VEntry (o : option entry)
| VStrings (l : list string)
| VString (s : string).

Definition lift {A : Type} (inj : A -> value) (m : M world A) : M world value :=
  a <- m ;; ret (inj a).

(** The tool as the host calls it. *)
Definition run (c : call) : M world value :=
  match c with
  | CreateSnippet ci kl tg cx ct => lift VReply (create_snippet ci kl tg cx ct)
  | SearchSnippets q tg => lift VEntries (search_snippets q tg)
  | SemanticSearch q li th tg => lift VEntries (semantic_search q li th tg)
  | GetSnippet i => lift VEntry (get_snippet i)
  | UpdateSnippet i ci kl tg cx ct =>
      lift VReply (update_snippet i ci kl tg cx ct)
  | DeleteSnippet i => lift VReply (delete_snippet i)
  | ListTags => lift VStrings list_tags
  | ExportSnippets f => lift VString (export_snippets f)
  | FindSimilarSnippets i li => lift VEntries (find_similar_snippets i li)
  end.

(** The statements under the tool's [try:]. *)
Definition guarded (c : call) : M world value :=
  match c with
  | CreateSnippet ci kl tg cx ct =>
      lift VReply (create_snippet_body ci kl tg (dflt "" cx) (dflt "civil" ct))
  | SearchSnippets q tg => lift VEntries (search_snippets_body (dflt "" q) tg)
  | SemanticSearch q li th tg =>
      lift VEntries
        (semantic_search_body q (dflt 10 li) (dflt (7 # 10)%Q th) tg)
  | GetSnippet i => lift VEntry (get_snippet_body i)
  | UpdateSnippet i ci kl tg cx ct =>
      lift VReply (update_snippet_body i ci kl tg cx ct)
  | DeleteSnippet i => lift VReply (delete_snippet_body i)
  | ListTags => lift VStrings list_tags_body
  | ExportSnippets f => lift VString (export_snippets_body (dflt "json" f))
  | FindSimilarSnippets i li =>
      lift VEntries (find_similar_snippets_body i (dflt 5 li))
  end.

(** The value built by the tool's [except Exception as e:] clause. *)
Definition on_failure (c : call) (e : exn) : value :=
  match c with
  | CreateSnippet _ _ _ _ _ => VReply (create_snippet_failed e)
  | SearchSnippets _ _ => VEntries (search_snippets_failed e)
  | SemanticSearch _ _ _ _ => VEntries (semantic_search_failed e)
  | GetSnippet _ => VEntry (get_snippet_failed e)
  | UpdateSnippet _ _ _ _ _ _ => VReply (update_snippet_failed e)
  | DeleteSnippet _ => VReply (delete_snippet_failed e)
  | ListTags => VStrings (list_tags_failed e)
  | ExportSnippets _ => VString (export_snippets_failed e)
  | FindSimilarSnippets _ _ => VEntries (find_similar_snippets_failed e)
  end.

End Server.

(** The error shapes: [status = "error"], the one-element list
    [[{"error": msg}]], the dict [{"error": msg}], the one-element list
    [["Error: ..."]] and the text ["Export failed: ..."]. *)
Definition error_shaped (v : value) : bool :=
  match v with
  | VReply r => String.eqb (status r) "error"
  | VEntries [Error _] => true
  | VEntries _ => false
  | VEntry (Some (Error _)) => true
  | VEntry _ => false
  | VStrings [s] => String.prefix "Error: " s
  | VStrings _ => false
  | VString s => String.prefix "Export failed: " s
  end.

(** [get_db] succeeds from this world: the server is reachable and, when the
    pool is still to be created, the embedding model can be set up. *)
Definition online (w : world) : bool :=
  reachable w && (pool w || model w || model_available w).





End Pg.

(* ================================================================== *)
(** * Vocabulary of the properties                                      *)
(* ================================================================== *)

(** The snippet appended by [create_snippet] on world [w]. *)
Definition json_created (clk : nat -> timestamp) (ci kl : string) (tg : list string)
    (cx ct : option string) (w : Json.world) : Json.snippet :=
  {| Json.id := Json.next_id (Json.document w);
     Json.citation := ci;
     Json.key_language := kl;
     Json.tags := tg;
     Json.context := dflt "" cx;
     Json.case_type := dflt "civil" ct;
     Json.created_at := clk (Json.reads w);
     Json.updated_at := clk (S (Json.reads w)) |}.

(** The world once [get_db] has handed out a connection. *)
Definition pg_connected (w : Pg.world) : Pg.world :=
  if Pg.pool w then w
  else {| Pg.table := Pg.table w; Pg.next_serial := Pg.next_serial w;
          Pg.reads := Pg.reads w; Pg.reachable := Pg.reachable w;
          Pg.model_available := Pg.model_available w;
          Pg.pool := true; Pg.model := true |}.

(** The row written by [create_snippet] on world [w]. *)
Definition pg_created (clk : nat -> timestamp)
    (encode : string -> Pg.embedding) (ci kl : string) (tg : list string)
    (cx ct : option string) (w : Pg.world) : Pg.row :=
  let context := dflt "" cx in
  let combined_text := "Citation: " ++ ci ++ ". Key Language: " ++ kl in
  let combined_text :=
    if truthy_str context then combined_text ++ " Context: " ++ context
    else combined_text in
  {| Pg.id := Pg.next_serial w;
     Pg.citation := ci;
     Pg.key_language := kl;
     Pg.tags := tg;
     Pg.context := context;
     Pg.case_type := dflt "civil" ct;
     Pg.created_at := clk (Pg.reads w);
     Pg.updated_at := clk (Pg.reads w);
     Pg.citation_embedding := encode ci;
     Pg.key_language_embedding := encode kl;
     Pg.combined_embedding := encode combined_text |}.

(** The primary key of the table comes from the sequence: every stored id is
    below the next value of the sequence and no two rows share an id. *)
Definition pg_well_formed (w : Pg.world) : Prop :=
  NoDup (map Pg.id (Pg.table w))
  /\ Forall (fun r => Pg.id r < Pg.next_serial w) (Pg.table w).

(** The [WHERE] clause picked by [search_snippets]. *)
Definition pg_search_cond (query : string) (tags : option (list string))
  : Pg.row -> bool :=
  if truthy_str query && truthy_opt_list tags then
    fun r => Pg.text_cond ("%" ++ query ++ "%") r
             && Pg.overlap (Pg.tags r) (dflt [] tags)
  else if truthy_str query then Pg.text_cond ("%" ++ query ++ "%")
  else if truthy_opt_list tags then
    fun r => Pg.overlap (Pg.tags r) (dflt [] tags)
  else fun _ => true.


(** ** Sample clock, encoder, distance and stores *)

Module Example.

(** A clock that ticks once per reading. *)
Definition clock : nat -> timestamp := Z.of_nat.

(** A one-component embedding. *)
Definition encode (text : string) : Pg.embedding :=
  [inject_Z (Z.of_nat (String.length text))].

Definition distance (a b : Pg.embedding) : Q :=
  match a, b with
  | x :: _, y :: _ => Qabs (x - y)
  | _, _ => 2%Q
  end.

Definition json_dumps (l : list Pg.Dict.t) : string :=
  "[" ++ join ", " (map (fun d => str_int (Pg.Dict.id d)) l) ++ "]".

Definition str_datetime (t : timestamp) : string := str_int t.

Definition smith : string := "Smith v. Jones, 123 F.3d 456 (2nd Cir. 2023)".
Definition doe : string := "Doe v. Roe, 45 U.S. 67 (1990)".

(** The JSON-file server: no file yet, after one creation, after two, and a
    file that does not parse. *)
Definition json_empty : Json.world :=
  {| Json.disk := Json.Missing; Json.reads := 0 |}.

Definition json_one : Json.world :=
  snd (Json.create_snippet clock smith "duty of care" ["negligence"; "tort"]
                           None None json_empty).

Definition json_two : Json.world :=
  snd (Json.create_snippet clock doe "standard of review" ["appeal"]
                           (Some "remanded") (Some "criminal") json_one).

Definition json_corrupt : Json.world :=
  {| Json.disk := Json.Corrupt; Json.reads := 0 |}.

Definition json_smith : Json.snippet :=
  json_created clock smith "duty of care" ["negligence"; "tort"] None None
               json_empty.

Definition history : list Json.op :=
  [Json.Create smith "duty of care" ["negligence"; "tort"] None None;
   Json.Create doe "standard of review" ["appeal"] None None;
   Json.Delete 2;
   Json.Create doe "standard of review" ["appeal"] None None;
   Json.Delete 1].

(** The PostgreSQL server: after [startup] on an empty table, after one
    creation, after two, and with the database out of reach. *)
Definition pg_started : Pg.world :=
  {| Pg.table := []; Pg.next_serial := 1; Pg.reads := 0;
     Pg.reachable := true; Pg.model_available := true;
     Pg.pool := true; Pg.model := true |}.

Definition pg_one : Pg.world :=
  snd (Pg.create_snippet clock encode smith "duty of care"
                         ["negligence"; "tort"] None None pg_started).

Definition pg_two : Pg.world :=
  snd (Pg.create_snippet clock encode doe "standard of review" ["appeal"]
                         (Some "remanded") (Some "criminal") pg_one).

Definition pg_down : Pg.world :=
  {| Pg.table := []; Pg.next_serial := 1; Pg.reads := 0;
     Pg.reachable := false; Pg.model_available := true;
     Pg.pool := false; Pg.model := false |}.

Definition pg_smith : Pg.row :=
  pg_created clock encode smith "duty of care" ["negligence"; "tort"]
             None None pg_started.

End Example.

(** ** Histories of tool calls, and what they keep *)

(** The world after a sequence of calls of the JSON-file server. *)
Fixpoint json_run_calls (clk : nat -> timestamp)
    (isoformat : timestamp -> string)
    (json_dumps : list Json.snippet -> string)
    (calls : list Json.call) (w : Json.world) : Json.world :=
  match calls with
  | [] => w
  | c :: rest =>
      json_run_calls clk isoformat json_dumps rest
                     (snd (Json.run clk isoformat json_dumps c w))
  end.

(** The world after a sequence of calls of the PostgreSQL server. *)
Fixpoint pg_run_calls (clk : nat -> timestamp)
    (encode : string -> Pg.embedding)
    (cosine_distance : Pg.embedding -> Pg.embedding -> Q)
    (json_dumps : list Pg.Dict.t -> string)
    (str_datetime : timestamp -> string)
    (calls : list Pg.call) (w : Pg.world) : Pg.world :=
  match calls with
  | [] => w
  | c :: rest =>
      pg_run_calls clk encode cosine_distance json_dumps str_datetime rest
        (snd (Pg.run clk encode cosine_distance json_dumps str_datetime c w))
  end.

(** No stored time stamp is ahead of the clock, and no snippet was updated
    before it was created. *)
Definition json_timely (clk : nat -> timestamp) (w : Json.world) : Prop :=
  Forall (fun s => Json.created_at s <= Json.updated_at s
                   /\ Json.updated_at s <= clk (Json.reads w))
         (Json.snippets (Json.document w)).


(** The text whose embedding is stored as [combined_embedding]. *)
Definition pg_combined_text (citation key_language context : string) : string :=
  let combined_text :=
    "Citation: " ++ citation ++ ". Key Language: " ++ key_language in
  if truthy_str context then combined_text ++ " Context: " ++ context
  else combined_text.


(** Every snippet of [w'] whose id had been handed out in [w] was stored in
    [w] with the same creation time and an update time that is not later. *)
Definition json_ages (w w' : Json.world) : Prop :=
  forall i s',
    find (fun s => Json.id s =? i) (Json.snippets (Json.document w')) = Some s' ->
    i < Json.next_id (Json.document w) ->
    exists s,
      find (fun s => Json.id s =? i) (Json.snippets (Json.document w)) = Some s
      /\ Json.created_at s' = Json.created_at s
      /\ Json.updated_at s <= Json.updated_at s'.

(** What [update_snippet] writes into the rows with the id, [current] being
    the row it has read first: the first [UPDATE] when a citation, key
    language or context is given, the second otherwise. *)
Definition pg_update_set (encode : string -> Pg.embedding)
    (citation key_language : option string) (tags : option (list string))
    (context case_type : option string) (current : Pg.row) (ts : timestamp)
  : Pg.row -> Pg.row :=
  let new_citation := or_else citation (Pg.citation current) in
  let new_key_language := or_else key_language (Pg.key_language current) in
  let new_context := or_else context (Pg.context current) in
  if truthy_opt_str citation || truthy_opt_str key_language
     || truthy_opt_str context then
    Pg.set_text_and_metadata new_citation new_key_language tags new_context
      case_type
      {| Pg.e_citation := encode new_citation;
         Pg.e_key_language := encode new_key_language;
         Pg.e_combined :=
           encode (pg_combined_text new_citation new_key_language
                                    new_context) |}
      ts
  else Pg.set_metadata tags case_type ts.


(** The part of a PostgreSQL world that is the database. *)
Definition pg_database (w : Pg.world) : list Pg.row * Z * nat :=
  (Pg.table w, Pg.next_serial w, Pg.reads w).

(** A computation that leaves the table, the sequence and the clock alone,
    whether it returns or raises. *)
Definition keeps_db {A : Type} (m : M Pg.world A) : Prop :=
  forall w, pg_database (snd (m w)) = pg_database w.


(** A computation that keeps a property of the world, whether it returns or
    raises. *)
Definition preserves {A : Type} (P : Pg.world -> Prop) (m : M Pg.world A)
  : Prop :=
  forall w, P w -> P (snd (m w)).

(** The pool exists and the embedding model is not loaded. *)
Definition pg_model_missing (w : Pg.world) : Prop :=
  Pg.pool w = true /\ Pg.model w = false.

(** The snippets are stored in the order of their creation times. *)
Definition json_chronological (w : Json.world) : Prop :=
  StronglySorted (fun a b => Json.created_at a <= Json.created_at b)
                 (Json.snippets (Json.document w)).

(** Further sample worlds. *)
Module Sample.


(** A process whose pool exists while the model is not loaded, the table
    holding two rows. *)
Definition pg_stuck : Pg.world :=
  {| Pg.table := Pg.table Example.pg_two; Pg.next_serial := 3;
     Pg.reads := 2; Pg.reachable := true; Pg.model_available := true;
     Pg.pool := true; Pg.model := false |}.

Definition isoformat (t : timestamp) : string := str_int t.

Definition json_dumps (l : list Json.snippet) : string :=
  "[" ++ join ", " (map (fun s => str_int (Json.id s)) l) ++ "]".

Definition calls : list Json.call :=
  [Json.CreateSnippet Example.smith "duty of care" ["negligence"; "tort"]
                      None None;
   Json.CreateSnippet Example.doe "standard of review" ["appeal"; "tort"]
                      (Some "remanded") (Some "criminal");
   Json.UpdateSnippet 1 None (Some "reasonable care") None None None;
   Json.SearchSnippets (Some "care") None;
   Json.DeleteSnippet 2;
   Json.ListTags].

Definition pg_calls : list Pg.call :=
  [Pg.CreateSnippet Example.smith "duty of care" ["negligence"; "tort"]
                    None None;
   Pg.CreateSnippet Example.doe "standard of review" ["appeal"; "tort"]
                    (Some "remanded") (Some "criminal");
   Pg.UpdateSnippet 1 None (Some "reasonable care") None None None;
   Pg.UpdateSnippet 2 None None (Some ["appeal"]) None None;
   Pg.SemanticSearch "care" None None None;
   Pg.DeleteSnippet 2;
   Pg.ListTags].

End Sample.

(* ================================================================== *)
(** * Properties                                                        *)
(* ================================================================== *)

(** ** Lists *)


Lemma find_filter_out {A : Type} (p : A -> bool) (l : list A) :
  find p (filter (fun x => negb (p x)) l) = None.
Proof.
  induction l as [| x l IH]; simpl; auto.
  destruct (p x) eqn:E; simpl; auto. now rewrite E.
Qed.

Lemma filter_out_length {A : Type} (p : A -> bool) (l : list A) :
  (List.length (filter (fun x => negb (p x)) l) <= List.length l)%nat.
Proof.
  induction l as [| x l IH]; simpl; auto.
  destruct (p x); simpl; lia.
Qed.

Lemma filter_out_shrinks {A : Type} (p : A -> bool) (l : list A) :
  (List.length (filter (fun x => negb (p x)) l) <? List.length l)%nat
  = existsb p l.
Proof.
  induction l as [| x l IH]; simpl; auto.
  pose proof (filter_out_length p l) as Hle.
  destruct (p x); simpl.
  - apply Nat.ltb_lt. lia.
  - rewrite <- IH. destruct (Nat.ltb_spec (List.length (filter (fun y => negb (p y)) l)) (List.length l));
      [apply Nat.ltb_lt | apply Nat.ltb_ge]; lia.
Qed.

Lemma filter_out_twice {A : Type} (p : A -> bool) (l : list A) :
  existsb p (filter (fun x => negb (p x)) l) = false.
Proof.
  induction l as [| x l IH]; simpl; auto.
  destruct (p x) eqn:E; simpl; auto. now rewrite E.
Qed.

(** A list splits at the first element that satisfies [p]. *)
Lemma split_first {A : Type} (p : A -> bool) (l : list A) (x : A) :
  find p l = Some x ->
  exists l1 l2, l = (l1 ++ x :: l2)%list /\ p x = true
                /\ Forall (fun y => p y = false) l1.
Proof.
  induction l as [| y l IH]; simpl; [discriminate |].
  destruct (p y) eqn:E; intros H.
  - injection H as ->. now exists [], l.
  - destruct (IH H) as (l1 & l2 & -> & Hx & Hl1).
    exists (y :: l1), l2. repeat split; auto.
Qed.

(** ** The JSON-file server, one call at a time *)

Section JsonCalls.

Variable clk : nat -> timestamp.

Lemma json_load_readable (w : Json.world) :
  Json.readable w = true ->
  Json.load_snippets w = (Returns (Json.document w), w).
Proof.
  unfold Json.readable, Json.load_snippets, Json.document.
  destruct (Json.disk w); auto; discriminate.
Qed.

Lemma json_load_corrupt (w : Json.world) :
  Json.readable w = false ->
  Json.load_snippets w = (Raises (JSONDecodeError "Expecting value"), w).
Proof.
  unfold Json.readable, Json.load_snippets.
  destruct (Json.disk w); auto; discriminate.
Qed.

Lemma json_create_run ci kl tg cx ct (w : Json.world) :
  Json.readable w = true ->
  Json.create_snippet clk ci kl tg cx ct w =
  (Returns {| status := "success";
              snippet_id := Some (Json.next_id (Json.document w));
              message := "Created snippet "
                         ++ str_int (Json.next_id (Json.document w))
                         ++ " for " ++ ci |},
   {| Json.disk :=
        Json.Stored
          {| Json.snippets :=
               (Json.snippets (Json.document w)
                ++ [json_created clk ci kl tg cx ct w])%list;
             Json.next_id := Json.next_id (Json.document w) + 1 |};
      Json.reads := S (S (Json.reads w)) |}).
Proof.
  intros Hr. unfold Json.create_snippet, bind.
  rewrite (json_load_readable w Hr). reflexivity.
Qed.

Lemma json_get_run (i : Z) (w : Json.world) :
  Json.readable w = true ->
  Json.get_snippet i w =
  (Returns (find (fun s => Json.id s =? i) (Json.snippets (Json.document w))),
   w).
Proof.
  intros Hr. unfold Json.get_snippet, bind.
  now rewrite (json_load_readable w Hr).
Qed.

Lemma json_search_run q tg (w : Json.world) :
  Json.readable w = true ->
  Json.search_snippets q tg w =
  (Returns (filter (Json.selected (dflt "" q) tg)
                   (Json.snippets (Json.document w))), w).
Proof.
  intros Hr. unfold Json.search_snippets, bind.
  now rewrite (json_load_readable w Hr).
Qed.

Lemma json_delete_run (i : Z) (w : Json.world) :
  Json.readable w = true ->
  Json.delete_snippet i w =
  if existsb (fun s => Json.id s =? i) (Json.snippets (Json.document w)) then
    (Returns {| status := "success"; snippet_id := None;
                message := "Deleted snippet " ++ str_int i |},
     {| Json.disk :=
          Json.Stored
            {| Json.snippets :=
                 filter (fun s => negb (Json.id s =? i))
                        (Json.snippets (Json.document w));
               Json.next_id := Json.next_id (Json.document w) |};
        Json.reads := Json.reads w |})
  else
    (Returns {| status := "error"; snippet_id := None;
                message := "Snippet " ++ str_int i ++ " not found" |}, w).
Proof.
  intros Hr. unfold Json.delete_snippet, bind.
  rewrite (json_load_readable w Hr).
  rewrite (filter_out_shrinks (fun s => Json.id s =? i)).
  now destruct (existsb _ _).
Qed.

Lemma json_delete_corrupt (i : Z) (w : Json.world) :
  Json.readable w = false ->
  Json.delete_snippet i w = (Raises (JSONDecodeError "Expecting value"), w).
Proof.
  intros Hr. unfold Json.delete_snippet, bind.
  now rewrite (json_load_corrupt w Hr).
Qed.

(** The loop of [update_snippet] changes the first snippet that carries the
    id and reads the clock once; it reads nothing when no snippet does. *)
Lemma json_update_loop_hit i ci kl tg cx ct l1 s l2 (w : Json.world) :
  Forall (fun y => (Json.id y =? i) = false) l1 ->
  (Json.id s =? i) = true ->
  Json.update_loop clk i ci kl tg cx ct (l1 ++ s :: l2) w =
  (Returns (Some (l1 ++ Json.assign ci kl tg cx ct (clk (Json.reads w)) s
                        :: l2)%list),
   {| Json.disk := Json.disk w; Json.reads := S (Json.reads w) |}).
Proof.
  intros Hl1 Hs. induction Hl1 as [| y l1 Hy _ IH]; simpl.
  - rewrite Hs. reflexivity.
  - rewrite Hy. unfold bind at 1. rewrite IH. reflexivity.
Qed.

Lemma json_update_loop_miss i ci kl tg cx ct l (w : Json.world) :
  find (fun y => Json.id y =? i) l = None ->
  Json.update_loop clk i ci kl tg cx ct l w = (Returns None, w).
Proof.
  induction l as [| y l IH]; simpl; intros H; [reflexivity |].
  destruct (Json.id y =? i); [discriminate |].
  unfold bind at 1. now rewrite (IH H).
Qed.

Lemma json_update_hit i ci kl tg cx ct l1 s l2 (w : Json.world) :
  Json.readable w = true ->
  Json.snippets (Json.document w) = (l1 ++ s :: l2)%list ->
  Forall (fun y => (Json.id y =? i) = false) l1 ->
  (Json.id s =? i) = true ->
  Json.update_snippet clk i ci kl tg cx ct w =
  (Returns {| status := "success"; snippet_id := None;
              message := "Updated snippet " ++ str_int i |},
   {| Json.disk :=
        Json.Stored
          {| Json.snippets :=
               (l1 ++ Json.assign ci kl tg cx ct (clk (Json.reads w)) s
                   :: l2)%list;
             Json.next_id := Json.next_id (Json.document w) |};
      Json.reads := S (Json.reads w) |}).
Proof.
  intros Hr Hd Hl1 Hs. unfold Json.update_snippet, bind.
  rewrite (json_load_readable w Hr), Hd.
  rewrite (json_update_loop_hit i ci kl tg cx ct l1 s l2 w Hl1 Hs).
  reflexivity.
Qed.

Lemma json_update_miss i ci kl tg cx ct (w : Json.world) :
  Json.readable w = true ->
  find (fun y => Json.id y =? i) (Json.snippets (Json.document w)) = None ->
  Json.update_snippet clk i ci kl tg cx ct w =
  (Returns {| status := "error"; snippet_id := None;
              message := "Snippet " ++ str_int i ++ " not found" |}, w).
Proof.
  intros Hr Hn. unfold Json.update_snippet, bind.
  rewrite (json_load_readable w Hr).
  now rewrite (json_update_loop_miss i ci kl tg cx ct _ w Hn).
Qed.

End JsonCalls.

(** ** Identifiers of the JSON-file server *)

Section JsonIdentifiers.

Variable clk : nat -> timestamp.

Lemma NoDup_snoc_fresh (l : list Z) (x : Z) :
  NoDup l -> ~ In x l -> NoDup (l ++ [x]).
Proof.
  intros Hl Hx.
  apply (Permutation_NoDup (l := x :: l)).
  - apply Permutation_cons_append.
  - now constructor.
Qed.

Lemma NoDup_map_filter {A : Type} (f : A -> Z) (p : A -> bool) (l : list A) :
  NoDup (map f l) -> NoDup (map f (filter p l)).
Proof.
  induction l as [| x l IH]; simpl; intros H; [constructor |].
  inversion H as [| ? ? Hx Hl]; subst.
  destruct (p x); simpl; auto.
  constructor; auto.
  intros Hin. apply Hx.
  apply in_map_iff in Hin as (y & Hy & Hin).
  apply in_map_iff. exists y. split; auto.
  now apply filter_In in Hin.
Qed.

Lemma json_create_keeps_well_formed ci kl tg cx ct (w : Json.world) :
  Json.well_formed w ->
  Json.well_formed (snd (Json.create_snippet clk ci kl tg cx ct w)).
Proof.
  intros (Hr & Hnd & Hlt).
  rewrite (json_create_run clk ci kl tg cx ct w Hr). simpl.
  unfold Json.well_formed, Json.readable, Json.document. simpl.
  fold (Json.document w). repeat split.
  - rewrite map_app. simpl. apply NoDup_snoc_fresh; auto.
    intros Hin. apply in_map_iff in Hin as (s & Hs & Hin).
    rewrite Forall_forall in Hlt. specialize (Hlt s Hin). lia.
  - apply Forall_app. split.
    + eapply Forall_impl; [| exact Hlt]. simpl. intros; lia.
    + constructor; [simpl; lia | constructor].
Qed.

Lemma json_delete_keeps_well_formed (i : Z) (w : Json.world) :
  Json.well_formed w ->
  Json.well_formed (snd (Json.delete_snippet i w)).
Proof.
  intros (Hr & Hnd & Hlt).
  rewrite (json_delete_run i w Hr).
  destruct (existsb _ _); simpl; [| now repeat split].
  unfold Json.well_formed, Json.readable, Json.document. simpl.
  fold (Json.document w). repeat split.
  - now apply NoDup_map_filter.
  - apply Forall_forall. intros s Hs. apply filter_In in Hs as [Hs _].
    rewrite Forall_forall in Hlt. now apply Hlt.
Qed.

Lemma json_delete_next_id (i : Z) (w : Json.world) :
  Json.next_id (Json.document (snd (Json.delete_snippet i w)))
  = Json.next_id (Json.document w).
Proof.
  destruct (Json.readable w) eqn:Hr.
  - rewrite (json_delete_run i w Hr). now destruct (existsb _ _).
  - now rewrite (json_delete_corrupt i w Hr).
Qed.

Lemma json_delete_subset (i : Z) (w : Json.world) (s : Json.snippet) :
  In s (Json.snippets (Json.document (snd (Json.delete_snippet i w)))) ->
  In s (Json.snippets (Json.document w)).
Proof.
  destruct (Json.readable w) eqn:Hr.
  - rewrite (json_delete_run i w Hr). destruct (existsb _ _); simpl; auto.
    unfold Json.document at 1. simpl. intros H. now apply filter_In in H.
  - now rewrite (json_delete_corrupt i w Hr).
Qed.

(** Along a history the handed-out ids increase strictly, stay below the
    counter, and every stored snippet is an old one or carries one of them. *)
Lemma json_history (ops : list Json.op) :
  forall (w w' : Json.world) (ids : list Z),
  Json.well_formed w ->
  Json.run_ops clk ops w = (ids, w') ->
  Json.well_formed w'
  /\ StronglySorted Z.lt ids
  /\ Forall (fun i => Json.next_id (Json.document w) <= i
                      < Json.next_id (Json.document w')) ids
  /\ Json.next_id (Json.document w) <= Json.next_id (Json.document w')
  /\ (forall s, In s (Json.snippets (Json.document w')) ->
        In s (Json.snippets (Json.document w)) \/ In (Json.id s) ids).
Proof.
  induction ops as [| o ops IH]; intros w w' ids Hwf Hrun.
  - simpl in Hrun. injection Hrun as <- <-.
    split; [exact Hwf |]. split; [constructor |]. split; [constructor |].
    split; [lia | now left].
  - destruct o as [ci kl tg cx ct | i]; simpl in Hrun.
    + pose proof (json_create_keeps_well_formed ci kl tg cx ct w Hwf) as Hwf1.
      destruct Hwf as (Hr & Hnd & Hlt).
      rewrite (json_create_run clk ci kl tg cx ct w Hr) in Hrun, Hwf1.
      simpl in Hrun, Hwf1.
      match type of Hwf1 with Json.well_formed ?x => set (w1 := x) in * end.
      destruct (Json.run_ops clk ops w1) as [ids1 w2] eqn:Hrest.
      injection Hrun as <- <-.
      destruct (IH w1 w2 ids1 Hwf1 Hrest) as (Hwf2 & Hs & Hb & Hn & Hin).
      assert (Hn1 : Json.next_id (Json.document w1)
                    = Json.next_id (Json.document w) + 1) by reflexivity.
      rewrite Hn1 in Hb, Hn.
      split; [exact Hwf2 |]. split; [| split; [| split]].
      * constructor; auto.
        eapply Forall_impl; [| exact Hb]. simpl. intros; lia.
      * constructor; [lia |].
        eapply Forall_impl; [| exact Hb]. simpl. intros; lia.
      * lia.
      * intros s Hs2. destruct (Hin s Hs2) as [H | H].
        -- unfold w1, Json.document in H. simpl in H. fold (Json.document w) in H.
           apply in_app_or in H as [H | [<- | []]]; [now left |].
           right. now left.
        -- right. now right.
    + pose proof (json_delete_keeps_well_formed i w Hwf) as Hwf1.
      destruct (IH _ w' ids Hwf1 Hrun) as (Hwf2 & Hs & Hb & Hn & Hin).
      rewrite json_delete_next_id in Hb, Hn.
      split; [exact Hwf2 |]. split; [exact Hs |]. split; [exact Hb |].
      split; [exact Hn |].
      intros s Hs2. destruct (Hin s Hs2) as [H | H]; [left | now right].
      now apply json_delete_subset in H.
Qed.

End JsonIdentifiers.

(** C9. In the JSON-file server an id identifies one snippet and is never
    handed out again: a creation hands out [next_id] and adds one to it, a
    deletion leaves [next_id] as it was, and along every history of creations
    and deletions from a well-formed store (the empty store in particular)
    the ids handed out increase strictly, all stay below the final [next_id],
    the stored ids stay pairwise distinct and below [next_id], and a stored
    snippet is an old one or carries an id that was handed out. *)
Theorem ids_unique_never_reused (clk : nat -> timestamp) :
  (forall ci kl tg cx ct (w : Json.world),
      Json.readable w = true ->
      exists r w',
        Json.create_snippet clk ci kl tg cx ct w = (Returns r, w')
        /\ snippet_id r = Some (Json.next_id (Json.document w))
        /\ Json.next_id (Json.document w')
           = Json.next_id (Json.document w) + 1)
  /\ (forall i (w : Json.world),
         Json.next_id (Json.document (snd (Json.delete_snippet i w)))
         = Json.next_id (Json.document w))
  /\ (forall ops (w w' : Json.world) ids,
         Json.well_formed w ->
         Json.run_ops clk ops w = (ids, w') ->
         Json.well_formed w'
         /\ StronglySorted Z.lt ids
         /\ Forall (fun i => Json.next_id (Json.document w) <= i
                             < Json.next_id (Json.document w')) ids
         /\ Json.next_id (Json.document w) <= Json.next_id (Json.document w')
         /\ (forall s, In s (Json.snippets (Json.document w')) ->
               In s (Json.snippets (Json.document w))
               \/ In (Json.id s) ids)).
Proof.
  split; [| split].
  - intros ci kl tg cx ct w Hr.
    rewrite (json_create_run clk ci kl tg cx ct w Hr).
    eexists _, _. split; [reflexivity |]. split; reflexivity.
  - intros i w. apply json_delete_next_id.
  - intros ops w w' ids. apply json_history.
Qed.

(** ** The PostgreSQL server: connections *)

Ltac pg_flags w :=
  destruct w as [tbl ser rds rch mav pl mdl]; simpl in *;
  destruct rch, pl, mdl, mav; simpl in *; try discriminate; try reflexivity.

Lemma pg_get_db_online (w : Pg.world) :
  Pg.online w = true -> Pg.get_db w = (Returns tt, pg_connected w).
Proof.
  unfold Pg.online, Pg.get_db, pg_connected. intros H. pg_flags w.
Qed.

Lemma pg_get_db_offline (w : Pg.world) :
  Pg.online w = false -> exists e w', Pg.get_db w = (Raises e, w').
Proof.
  unfold Pg.online, Pg.get_db. intros H.
  pg_flags w; eexists _, _; reflexivity.
Qed.

Lemma pg_connected_table (w : Pg.world) :
  Pg.table (pg_connected w) = Pg.table w.
Proof. unfold pg_connected. now destruct (Pg.pool w). Qed.

Lemma pg_connected_serial (w : Pg.world) :
  Pg.next_serial (pg_connected w) = Pg.next_serial w.
Proof. unfold pg_connected. now destruct (Pg.pool w). Qed.

Lemma pg_connected_reads (w : Pg.world) :
  Pg.reads (pg_connected w) = Pg.reads w.
Proof. unfold pg_connected. now destruct (Pg.pool w). Qed.

Lemma pg_connected_online (w : Pg.world) :
  Pg.online w = true -> Pg.online (pg_connected w) = true.
Proof. unfold Pg.online, pg_connected. intros H. pg_flags w. Qed.

Lemma pg_set_table_online (t : list Pg.row) (w : Pg.world) :
  Pg.online (Pg.set_table t w) = Pg.online w.
Proof. reflexivity. Qed.

(** ** The PostgreSQL server, one call at a time *)

Section PgCalls.

Variable clk : nat -> timestamp.
Variable encode : string -> Pg.embedding.
Variable cosine_distance : Pg.embedding -> Pg.embedding -> Q.

Lemma pg_get_run (i : Z) (w : Pg.world) :
  Pg.online w = true ->
  Pg.get_snippet i w =
  (Returns (option_map (fun r => Pg.Row (Pg.columns8 r))
                       (find (fun r => Pg.id r =? i) (Pg.table w))),
   pg_connected w).
Proof.
  intros H. unfold Pg.get_snippet, Pg.get_snippet_body, try_except, bind.
  rewrite (pg_get_db_online w H). unfold Pg.fetchrow_by_id, ret.
  now rewrite pg_connected_table.
Qed.

Lemma pg_search_run q tg (w : Pg.world) :
  Pg.online w = true ->
  Pg.search_snippets q tg w =
  (Returns (map (fun r => Pg.Row (Pg.columns8 r))
                (Pg.order_by Pg.by_updated_desc
                   (filter (pg_search_cond (dflt "" q) tg) (Pg.table w)))),
   pg_connected w).
Proof.
  intros H. unfold Pg.search_snippets, Pg.search_snippets_body, try_except, bind.
  rewrite (pg_get_db_online w H). unfold pg_search_cond.
  destruct (truthy_str (dflt "" q) && truthy_opt_list tg);
    [| destruct (truthy_str (dflt "" q)); [| destruct (truthy_opt_list tg)]];
    unfold Pg.fetch, ret; now rewrite pg_connected_table.
Qed.

Lemma pg_delete_run (i : Z) (w : Pg.world) :
  Pg.online w = true ->
  Pg.delete_snippet i w =
  (Returns
     (if String.eqb
           ("DELETE " ++ str_int (Z.of_nat (List.length
               (filter (fun r => Pg.id r =? i) (Pg.table w)))))
           "DELETE 1"
      then {| status := "success"; snippet_id := None;
              message := "Deleted snippet " ++ str_int i |}
      else {| status := "error"; snippet_id := None;
              message := "Snippet " ++ str_int i ++ " not found" |}),
   Pg.set_table (filter (fun r => negb (Pg.id r =? i)) (Pg.table w))
                (pg_connected w)).
Proof.
  intros H. unfold Pg.delete_snippet, Pg.delete_snippet_body, try_except, bind.
  rewrite (pg_get_db_online w H). unfold Pg.delete_by_id, ret.
  rewrite pg_connected_table. now destruct (String.eqb _ _).
Qed.

(** Off line, the deletion answers with its error reply. *)
Lemma pg_delete_offline (i : Z) (w : Pg.world) :
  Pg.online w = false ->
  exists e w', Pg.delete_snippet i w = (Returns (Pg.delete_snippet_failed e), w').
Proof.
  intros H. unfold Pg.delete_snippet, Pg.delete_snippet_body, try_except, bind.
  destruct (pg_get_db_offline w H) as (e & w' & ->).
  now exists e, w'.
Qed.

Lemma pg_generate_embeddings_run ci kl cx (w : Pg.world) :
  Pg.model w = true ->
  Pg.generate_embeddings encode ci kl cx w =
  (Returns {| Pg.e_citation := encode ci;
              Pg.e_key_language := encode kl;
              Pg.e_combined :=
                encode (if truthy_str cx
                        then ("Citation: " ++ ci ++ ". Key Language: " ++ kl)
                             ++ " Context: " ++ cx
                        else "Citation: " ++ ci ++ ". Key Language: " ++ kl) |},
   w).
Proof.
  intros H. unfold Pg.generate_embeddings, Pg.encode_text, bind, ret.
  repeat (rewrite H; cbn beta iota). reflexivity.
Qed.

Lemma pg_generate_embeddings_unloaded ci kl cx (w : Pg.world) :
  Pg.model w = false ->
  Pg.generate_embeddings encode ci kl cx w =
  (Raises (RuntimeError "Embedding model not initialized"), w).
Proof.
  intros H. unfold Pg.generate_embeddings, Pg.encode_text, bind, ret.
  now rewrite H.
Qed.

Lemma pg_create_run ci kl tg cx ct (w : Pg.world) :
  Pg.model w = true -> Pg.online w = true ->
  Pg.create_snippet clk encode ci kl tg cx ct w =
  (Returns {| status := "success";
              snippet_id := Some (Pg.next_serial w);
              message := "Created snippet " ++ str_int (Pg.next_serial w)
                         ++ " for " ++ ci |},
   {| Pg.table := (Pg.table w ++ [pg_created clk encode ci kl tg cx ct w])%list;
      Pg.next_serial := Pg.next_serial w + 1;
      Pg.reads := S (Pg.reads w);
      Pg.reachable := Pg.reachable w;
      Pg.model_available := Pg.model_available w;
      Pg.pool := true;
      Pg.model := true |}).
Proof.
  intros Hm Ho. unfold Pg.create_snippet, Pg.create_snippet_body, try_except.
  unfold bind at 1. rewrite (pg_generate_embeddings_run _ _ _ w Hm).
  unfold bind at 1. rewrite (pg_get_db_online w Ho).
  unfold Pg.online in Ho. unfold pg_created, pg_connected.
  pg_flags w.
Qed.


End PgCalls.

(** ** Creating a snippet and reading it back *)

Section CreateThenGet.

Variable clk : nat -> timestamp.
Variable encode : string -> Pg.embedding.
Hypothesis clk_monotone : forall n, clk n <= clk (S n).



End CreateThenGet.


(** ** Deleting a snippet *)

Lemma filter_after_filter_out {A : Type} (p : A -> bool) (l : list A) :
  filter p (filter (fun x => negb (p x)) l) = [].
Proof.
  induction l as [| x l IH]; simpl; auto.
  destruct (p x) eqn:E; simpl; auto. now rewrite E.
Qed.

Lemma filter_twice {A : Type} (p : A -> bool) (l : list A) :
  filter p (filter p l) = filter p l.
Proof.
  induction l as [| x l IH]; simpl; auto.
  destruct (p x) eqn:E; simpl; rewrite ?E; congruence.
Qed.

Lemma pg_connected_pool (w : Pg.world) :
  Pg.pool w = true -> pg_connected w = w.
Proof. unfold pg_connected. now intros ->. Qed.

Lemma pg_connected_has_pool (w : Pg.world) :
  Pg.pool (pg_connected w) = true.
Proof. unfold pg_connected. now destruct (Pg.pool w) eqn:E. Qed.

Lemma json_absent_after_delete (i : Z) (w w1 : Json.world) (r : reply) :
  Json.delete_snippet i w = (Returns r, w1) ->
  status r = "success" ->
  Json.get_snippet i w1 = (Returns None, w1)
  /\ Json.delete_snippet i w1 =
     (Returns {| status := "error"; snippet_id := None;
                 message := "Snippet " ++ str_int i ++ " not found" |}, w1).
Proof.
  intros Hrun Hs.
  destruct (Json.readable w) eqn:Hr.
  - rewrite (json_delete_run i w Hr) in Hrun.
    destruct (existsb _ _); injection Hrun as <- <-; [| discriminate].
    split.
    + rewrite json_get_run by reflexivity.
      unfold Json.document at 1. simpl.
      now rewrite (find_filter_out (fun s => Json.id s =? i)).
    + rewrite json_delete_run by reflexivity.
      unfold Json.document at 1. simpl.
      now rewrite (filter_out_twice (fun s => Json.id s =? i)).
  - rewrite (json_delete_corrupt i w Hr) in Hrun. discriminate.
Qed.

Lemma pg_absent_after_delete (i : Z) (w w1 : Pg.world) (r : reply) :
  Pg.delete_snippet i w = (Returns r, w1) ->
  status r = "success" ->
  Pg.get_snippet i w1 = (Returns None, w1)
  /\ Pg.delete_snippet i w1 =
     (Returns {| status := "error"; snippet_id := None;
                 message := "Snippet " ++ str_int i ++ " not found" |}, w1).
Proof.
  intros Hrun Hs.
  destruct (Pg.online w) eqn:Ho.
  - rewrite (pg_delete_run i w Ho) in Hrun. injection Hrun as _ <-.
    set (w1 := Pg.set_table _ (pg_connected w)).
    assert (Ho1 : Pg.online w1 = true)
      by (unfold w1; rewrite pg_set_table_online; now apply pg_connected_online).
    assert (Hc1 : pg_connected w1 = w1)
      by (apply pg_connected_pool; unfold w1; simpl; apply pg_connected_has_pool).
    assert (Ht1 : Pg.table w1 =
                  filter (fun r => negb (Pg.id r =? i)) (Pg.table w))
      by reflexivity.
    split.
    + rewrite (pg_get_run i w1 Ho1), Hc1, Ht1.
      now rewrite (find_filter_out (fun r => Pg.id r =? i)).
    + rewrite (pg_delete_run i w1 Ho1), Hc1, Ht1.
      rewrite (filter_after_filter_out (fun r => Pg.id r =? i)). simpl.
      f_equal. unfold w1, Pg.set_table. simpl. f_equal.
      apply filter_twice.
  - destruct (pg_delete_offline i w Ho) as (e & w' & He).
    rewrite He in Hrun. injection Hrun as <- _. discriminate.
Qed.

(** C8. Once [delete_snippet] has succeeded for an id, [get_snippet] on that
    id finds nothing and a second [delete_snippet] answers with the not-found
    error; in both servers and from every store. *)
Theorem delete_then_absent :
  (forall (i : Z) (w w1 : Json.world) (r : reply),
      Json.delete_snippet i w = (Returns r, w1) ->
      status r = "success" ->
      Json.get_snippet i w1 = (Returns None, w1)
      /\ Json.delete_snippet i w1 =
         (Returns {| status := "error"; snippet_id := None;
                     message := "Snippet " ++ str_int i ++ " not found" |},
          w1))
  /\ (forall (i : Z) (w w1 : Pg.world) (r : reply),
         Pg.delete_snippet i w = (Returns r, w1) ->
         status r = "success" ->
         Pg.get_snippet i w1 = (Returns None, w1)
         /\ Pg.delete_snippet i w1 =
            (Returns {| status := "error"; snippet_id := None;
                        message := "Snippet " ++ str_int i ++ " not found" |},
             w1)).
Proof.
  split.
  - exact json_absent_after_delete.
  - exact pg_absent_after_delete.
Qed.

(** ** Updating a snippet *)

Lemma find_app_first {A : Type} (p : A -> bool) (l1 l2 : list A) (x : A) :
  Forall (fun y => p y = false) l1 -> p x = true ->
  find p (l1 ++ x :: l2) = Some x.
Proof.
  intros Hl Hx. induction Hl as [| y l Hy _ IH]; simpl.
  - now rewrite Hx.
  - now rewrite Hy.
Qed.

Lemma map_where_none {A : Type} (p : A -> bool) (g : A -> A) (l : list A) :
  Forall (fun y => p y = false) l ->
  map (fun y => if p y then g y else y) l = l.
Proof.
  induction 1 as [| y l Hy _ IH]; simpl; auto.
  now rewrite Hy, IH.
Qed.

(** Where the keys are pairwise distinct, a member splits the list into two
    parts that do not carry its key. *)
Lemma split_at_key {A : Type} (key : A -> Z) (l : list A) (x : A) :
  NoDup (map key l) -> In x l ->
  exists l1 l2, l = (l1 ++ x :: l2)%list
                /\ Forall (fun y => (key y =? key x) = false) l1
                /\ Forall (fun y => (key y =? key x) = false) l2.
Proof.
  intros Hnd Hin.
  destruct (in_split x l Hin) as (l1 & l2 & ->).
  exists l1, l2. split; [reflexivity |].
  rewrite map_app in Hnd. simpl in Hnd.
  pose proof (NoDup_remove_2 _ _ _ Hnd) as Hout.
  split; apply Forall_forall; intros y Hy; apply Z.eqb_neq; intros E;
    apply Hout; apply in_or_app; [left | right];
    apply in_map_iff; exists y; auto.
Qed.

Section Update.

Variable clk : nat -> timestamp.
Variable encode : string -> Pg.embedding.

(** [update_snippet] of the JSON-file server on the id of a stored snippet:
    that snippet is rewritten by [assign] with the current clock reading, the
    snippets before and after it stay as they are. *)
Lemma json_update_stored ci kl tg cx ct (w : Json.world) (s : Json.snippet) :
  Json.well_formed w ->
  In s (Json.snippets (Json.document w)) ->
  exists l1 l2 w',
    Json.snippets (Json.document w) = (l1 ++ s :: l2)%list
    /\ Json.update_snippet clk (Json.id s) ci kl tg cx ct w =
       (Returns {| status := "success"; snippet_id := None;
                   message := "Updated snippet " ++ str_int (Json.id s) |}, w')
    /\ Json.document w' =
       {| Json.snippets :=
            (l1 ++ Json.assign ci kl tg cx ct (clk (Json.reads w)) s :: l2)%list;
          Json.next_id := Json.next_id (Json.document w) |}
    /\ Json.get_snippet (Json.id s) w' =
       (Returns (Some (Json.assign ci kl tg cx ct (clk (Json.reads w)) s)), w').
Proof.
  intros (Hr & Hnd & _) Hin.
  destruct (split_at_key Json.id _ s Hnd Hin) as (l1 & l2 & Hl & H1 & _).
  exists l1, l2. eexists. split; [exact Hl |].
  split; [apply (json_update_hit clk _ ci kl tg cx ct l1 s l2 w Hr Hl H1);
          apply Z.eqb_refl |].
  split; [reflexivity |].
  rewrite json_get_run by reflexivity.
  unfold Json.document at 1. simpl.
  rewrite find_app_first; auto. simpl. apply Z.eqb_refl.
Qed.

(** [update_snippet] of the PostgreSQL server on the id of a stored row, with
    no new citation, key language or context: the second [UPDATE] runs. *)
Lemma pg_update_stored_metadata ci kl tg cx ct (w : Pg.world) (r : Pg.row) :
  pg_well_formed w ->
  Pg.online w = true ->
  In r (Pg.table w) ->
  truthy_opt_str ci = false ->
  truthy_opt_str kl = false ->
  truthy_opt_str cx = false ->
  exists l1 l2 w',
    Pg.table w = (l1 ++ r :: l2)%list
    /\ Pg.update_snippet clk encode (Pg.id r) ci kl tg cx ct w =
       (Returns {| status := "success"; snippet_id := None;
                   message := "Updated snippet " ++ str_int (Pg.id r) |}, w')
    /\ Pg.table w' =
       (l1 ++ Pg.set_metadata tg ct (clk (Pg.reads w)) r :: l2)%list
    /\ Pg.get_snippet (Pg.id r) w' =
       (Returns (Some (Pg.Row (Pg.columns8
                  (Pg.set_metadata tg ct (clk (Pg.reads w)) r)))), w').
Proof.
  intros (Hnd & _) Ho Hin Hci Hkl Hcx.
  destruct (split_at_key Pg.id _ r Hnd Hin) as (l1 & l2 & Hl & H1 & H2).
  assert (Hfind : find (fun x => Pg.id x =? Pg.id r) (Pg.table w) = Some r)
    by (rewrite Hl; apply find_app_first; auto; apply Z.eqb_refl).
  exists l1, l2.
  exists (Pg.set_table
            (l1 ++ Pg.set_metadata tg ct (clk (Pg.reads w)) r :: l2)%list
            {| Pg.table := Pg.table w; Pg.next_serial := Pg.next_serial w;
               Pg.reads := S (Pg.reads w); Pg.reachable := Pg.reachable w;
               Pg.model_available := Pg.model_available w;
               Pg.pool := true;
               Pg.model := Pg.model (pg_connected w) |}).
  split; [exact Hl |]. split; [| split; [reflexivity |]].
  - unfold Pg.update_snippet, Pg.update_snippet_body, try_except.
    unfold bind at 1. rewrite (pg_get_db_online w Ho).
    unfold bind at 1. unfold Pg.fetchrow_by_id at 1.
    rewrite pg_connected_table, Hfind, Hci, Hkl, Hcx. simpl.
    unfold bind, Pg.update_by_id, Pg.current_timestamp, bind, ret. simpl.
    rewrite pg_connected_table, pg_connected_serial, pg_connected_reads.
    rewrite pg_connected_has_pool.
    f_equal. unfold Pg.set_table. simpl. f_equal.
    + rewrite Hl, map_app. simpl. rewrite Z.eqb_refl.
      rewrite (map_where_none (fun y => Pg.id y =? Pg.id r)) by exact H1.
      now rewrite (map_where_none (fun y => Pg.id y =? Pg.id r)) by exact H2.
    + unfold pg_connected. now destruct (Pg.pool w).
    + unfold pg_connected. now destruct (Pg.pool w).
  - rewrite pg_get_run.
    + simpl. rewrite find_app_first; auto. simpl. apply Z.eqb_refl.
    + unfold Pg.online in *. simpl.
      destruct (Pg.reachable w); [reflexivity | discriminate].
Qed.

End Update.

(** C5. [update_snippet] on the id of a stored snippet with a non-empty tags
    list and nothing else: the call succeeds, the snippet keeps its id,
    citation, key language, context, case type and creation time (and, in the
    PostgreSQL server, its embeddings), carries the new tags and the clock
    reading of the call as [updated_at], and the snippets stored before and
    after it are the same as before; in both servers. *)
Theorem update_tags_only (clk : nat -> timestamp)
    (encode : string -> Pg.embedding) :
  (forall (tg : list string) (w : Json.world) (s : Json.snippet),
      Json.well_formed w ->
      In s (Json.snippets (Json.document w)) ->
      tg <> [] ->
      let s' :=
        {| Json.id := Json.id s;
           Json.citation := Json.citation s;
           Json.key_language := Json.key_language s;
           Json.tags := tg;
           Json.context := Json.context s;
           Json.case_type := Json.case_type s;
           Json.created_at := Json.created_at s;
           Json.updated_at := clk (Json.reads w) |} in
      exists l1 l2 w',
        Json.snippets (Json.document w) = (l1 ++ s :: l2)%list
        /\ Json.update_snippet clk (Json.id s) None None (Some tg) None None w
           = (Returns {| status := "success"; snippet_id := None;
                         message := "Updated snippet "
                                    ++ str_int (Json.id s) |}, w')
        /\ Json.document w' =
           {| Json.snippets := (l1 ++ s' :: l2)%list;
              Json.next_id := Json.next_id (Json.document w) |}
        /\ Json.get_snippet (Json.id s) w' = (Returns (Some s'), w'))
  /\ (forall (tg : list string) (w : Pg.world) (r : Pg.row),
         pg_well_formed w ->
         Pg.online w = true ->
         In r (Pg.table w) ->
         tg <> [] ->
         let r' :=
           {| Pg.id := Pg.id r;
              Pg.citation := Pg.citation r;
              Pg.key_language := Pg.key_language r;
              Pg.tags := tg;
              Pg.context := Pg.context r;
              Pg.case_type := Pg.case_type r;
              Pg.created_at := Pg.created_at r;
              Pg.updated_at := clk (Pg.reads w);
              Pg.citation_embedding := Pg.citation_embedding r;
              Pg.key_language_embedding := Pg.key_language_embedding r;
              Pg.combined_embedding := Pg.combined_embedding r |} in
         exists l1 l2 w',
           Pg.table w = (l1 ++ r :: l2)%list
           /\ Pg.update_snippet clk encode (Pg.id r) None None (Some tg)
                                None None w
              = (Returns {| status := "success"; snippet_id := None;
                            message := "Updated snippet "
                                       ++ str_int (Pg.id r) |}, w')
           /\ Pg.table w' = (l1 ++ r' :: l2)%list
           /\ Pg.get_snippet (Pg.id r) w' =
              (Returns (Some (Pg.Row (Pg.columns8 r'))), w')).
Proof.
  split.
  - intros tg w s Hwf Hin Htg s'.
    destruct (json_update_stored clk None None (Some tg) None None w s Hwf Hin)
      as (l1 & l2 & w' & Hl & Hrun & Hdoc & Hget).
    assert (Hs' : Json.assign None None (Some tg) None None
                              (clk (Json.reads w)) s = s')
      by (destruct tg; [congruence | reflexivity]).
    rewrite Hs' in Hdoc, Hget. now exists l1, l2, w'.
  - intros tg w r Hwf Ho Hin Htg r'.
    destruct (pg_update_stored_metadata clk encode None None (Some tg) None None
                w r Hwf Ho Hin eq_refl eq_refl eq_refl)
      as (l1 & l2 & w' & Hl & Hrun & Htab & Hget).
    now exists l1, l2, w'.
Qed.

(** C10, as the servers have it. [update_snippet] on the id of a stored
    snippet always succeeds and stamps [updated_at] with the clock reading of
    the call. In the JSON-file server every argument that is absent or falsy
    ([None], [""], [[]]) leaves its field as it was. In the PostgreSQL server
    an absent or empty citation, key language or context leaves the three
    text fields and the embeddings as they were, an absent tags list or case
    type leaves that column as it was, and a tags list or case type that is
    passed is written to the row as it is. *)
Theorem update_without_fields (clk : nat -> timestamp)
    (encode : string -> Pg.embedding) :
  (forall ci kl tg cx ct (w : Json.world) (s : Json.snippet),
      Json.well_formed w ->
      In s (Json.snippets (Json.document w)) ->
      truthy_opt_str ci = false ->
      truthy_opt_str kl = false ->
      truthy_opt_list tg = false ->
      truthy_opt_str cx = false ->
      truthy_opt_str ct = false ->
      let s' :=
        {| Json.id := Json.id s;
           Json.citation := Json.citation s;
           Json.key_language := Json.key_language s;
           Json.tags := Json.tags s;
           Json.context := Json.context s;
           Json.case_type := Json.case_type s;
           Json.created_at := Json.created_at s;
           Json.updated_at := clk (Json.reads w) |} in
      exists l1 l2 w',
        Json.snippets (Json.document w) = (l1 ++ s :: l2)%list
        /\ Json.update_snippet clk (Json.id s) ci kl tg cx ct w
           = (Returns {| status := "success"; snippet_id := None;
                         message := "Updated snippet "
                                    ++ str_int (Json.id s) |}, w')
        /\ Json.document w' =
           {| Json.snippets := (l1 ++ s' :: l2)%list;
              Json.next_id := Json.next_id (Json.document w) |}
        /\ Json.get_snippet (Json.id s) w' = (Returns (Some s'), w'))
  /\ (forall ci kl tg cx ct (w : Pg.world) (r : Pg.row),
         pg_well_formed w ->
         Pg.online w = true ->
         In r (Pg.table w) ->
         truthy_opt_str ci = false ->
         truthy_opt_str kl = false ->
         truthy_opt_str cx = false ->
         let r' :=
           {| Pg.id := Pg.id r;
              Pg.citation := Pg.citation r;
              Pg.key_language := Pg.key_language r;
              Pg.tags := match tg with Some l => l | None => Pg.tags r end;
              Pg.context := Pg.context r;
              Pg.case_type :=
                match ct with Some c => c | None => Pg.case_type r end;
              Pg.created_at := Pg.created_at r;
              Pg.updated_at := clk (Pg.reads w);
              Pg.citation_embedding := Pg.citation_embedding r;
              Pg.key_language_embedding := Pg.key_language_embedding r;
              Pg.combined_embedding := Pg.combined_embedding r |} in
         exists l1 l2 w',
           Pg.table w = (l1 ++ r :: l2)%list
           /\ Pg.update_snippet clk encode (Pg.id r) ci kl tg cx ct w
              = (Returns {| status := "success"; snippet_id := None;
                            message := "Updated snippet "
                                       ++ str_int (Pg.id r) |}, w')
           /\ Pg.table w' = (l1 ++ r' :: l2)%list
           /\ Pg.get_snippet (Pg.id r) w' =
              (Returns (Some (Pg.Row (Pg.columns8 r'))), w')).
Proof.
  split.
  - intros ci kl tg cx ct w s Hwf Hin Hci Hkl Htg Hcx Hct s'.
    destruct (json_update_stored clk ci kl tg cx ct w s Hwf Hin)
      as (l1 & l2 & w' & Hl & Hrun & Hdoc & Hget).
    assert (Hor : forall o y, truthy_opt_str o = false -> or_else o y = y).
    { intros [x |] y H; simpl in *; [now rewrite H | reflexivity]. }
    assert (Hs' : Json.assign ci kl tg cx ct (clk (Json.reads w)) s = s').
    { unfold Json.assign, s'. now rewrite Htg, !Hor. }
    rewrite Hs' in Hdoc, Hget. now exists l1, l2, w'.
  - intros ci kl tg cx ct w r Hwf Ho Hin Hci Hkl Hcx r'.
    destruct (pg_update_stored_metadata clk encode ci kl tg cx ct
                w r Hwf Ho Hin Hci Hkl Hcx)
      as (l1 & l2 & w' & Hl & Hrun & Htab & Hget).
    now exists l1, l2, w'.
Qed.

(** ** Failures at the tool boundary *)

Section Boundary.

Variable clk : nat -> timestamp.
Variable encode : string -> Pg.embedding.
Variable cosine_distance : Pg.embedding -> Pg.embedding -> Q.
Variable json_dumps : list Pg.Dict.t -> string.
Variable str_datetime : timestamp -> string.

(** A body under [try:] whose [except] clause builds a value. *)
Lemma lift_try_except {A : Type} (inj : A -> Pg.value) (body : M Pg.world A)
    (failed : exn -> A) (w : Pg.world) :
  Pg.lift inj (try_except body (fun e => ret (failed e))) w =
  match Pg.lift inj body w with
  | (Returns v, w') => (Returns v, w')
  | (Raises e, w') => (Returns (inj (failed e)), w')
  end.
Proof.
  unfold Pg.lift, try_except, bind, ret.
  destruct (body w) as [[a | e] w']; reflexivity.
Qed.

Lemma pg_run_guarded (c : Pg.call) (w : Pg.world) :
  Pg.run clk encode cosine_distance json_dumps str_datetime c w =
  match Pg.guarded clk encode cosine_distance json_dumps str_datetime c w with
  | (Returns v, w') => (Returns v, w')
  | (Raises e, w') => (Returns (Pg.on_failure c e), w')
  end.
Proof.
  destruct c; simpl;
    unfold Pg.create_snippet, Pg.search_snippets, Pg.semantic_search,
           Pg.get_snippet, Pg.update_snippet, Pg.delete_snippet,
           Pg.list_tags, Pg.export_snippets, Pg.find_similar_snippets;
    apply lift_try_except.
Qed.

Lemma pg_on_failure_shape (c : Pg.call) (e : exn) :
  Pg.error_shaped (Pg.on_failure c e) = true.
Proof.
  destruct c; try reflexivity; simpl; now destruct (str_exn e).
Qed.

End Boundary.

Section JsonBoundary.

Variable clk : nat -> timestamp.
Variable isoformat : timestamp -> string.
Variable json_dumps : list Json.snippet -> string.

(** Every tool of the JSON-file server starts by loading the file, outside
    any [try:]: what [json.load] raises reaches the caller. *)
Lemma json_run_corrupt (c : Json.call) (w : Json.world) :
  Json.readable w = false ->
  Json.run clk isoformat json_dumps c w
  = (Raises (JSONDecodeError "Expecting value"), w).
Proof.
  intros Hr. destruct c; simpl;
    unfold Json.lift, Json.create_snippet, Json.search_snippets,
           Json.get_snippet, Json.update_snippet, Json.delete_snippet,
           Json.list_tags, Json.export_snippets, bind;
    now rewrite (json_load_corrupt w Hr).
Qed.

Lemma json_run_readable (c : Json.call) (w : Json.world) :
  Json.readable w = true ->
  exists v w', Json.run clk isoformat json_dumps c w = (Returns v, w').
Proof.
  intros Hr.
  destruct c as [ci kl tg cx ct | q tg | i | i ci kl tg cx ct | i | | f];
    simpl; unfold Json.lift; unfold bind at 1.
  - rewrite (json_create_run clk _ _ _ _ _ w Hr). eexists _, _; reflexivity.
  - rewrite (json_search_run _ _ w Hr). eexists _, _; reflexivity.
  - rewrite (json_get_run _ w Hr). eexists _, _; reflexivity.
  - destruct (find (fun y => Json.id y =? i)
                   (Json.snippets (Json.document w))) as [s |] eqn:Hf.
    + destruct (split_first _ _ _ Hf) as (l1 & l2 & Hl & Hs & Hl1).
      rewrite (json_update_hit clk i _ _ _ _ _ l1 s l2 w Hr Hl Hl1 Hs).
      eexists _, _; reflexivity.
    + rewrite (json_update_miss clk i _ _ _ _ _ w Hr Hf).
      eexists _, _; reflexivity.
  - rewrite (json_delete_run _ w Hr).
    destruct (existsb _ _); eexists _, _; reflexivity.
  - unfold Json.list_tags, bind. rewrite (json_load_readable w Hr).
    eexists _, _; reflexivity.
  - unfold Json.export_snippets, bind. rewrite (json_load_readable w Hr).
    destruct (String.eqb _ _); eexists _, _; reflexivity.
Qed.

End JsonBoundary.

(** C1, as the servers have it. Every tool of the PostgreSQL server comes
    back with a value on every input and every world, the unreachable
    database and the missing embedding model included: when the statements
    under its [try:] raise [e], the tool returns the value of its [except]
    clause, which has the error shape of that tool (status ["error"] for
    create, update and delete; the one-element list [[{"error": msg}]] for the
    three searches; the dict [{"error": msg}] for [get_snippet]; the
    one-element list [["Error: ..."]] for [list_tags]; the text
    ["Export failed: ..."] for [export_snippets]); when they return a value,
    the tool returns that value. The tools of the JSON-file server have no
    [try:]: each returns a value when the file is absent or parses, and each
    lets the exception of [json.load] through when the file does not parse. *)
Theorem tools_at_failure (clk : nat -> timestamp)
    (encode : string -> Pg.embedding)
    (cosine_distance : Pg.embedding -> Pg.embedding -> Q)
    (json_dumps : list Pg.Dict.t -> string)
    (str_datetime : timestamp -> string) (c : Pg.call) :
  never_raises (Pg.run clk encode cosine_distance json_dumps str_datetime c)
  /\ (forall w e w',
         Pg.guarded clk encode cosine_distance json_dumps str_datetime c w
         = (Raises e, w') ->
         Pg.run clk encode cosine_distance json_dumps str_datetime c w
         = (Returns (Pg.on_failure c e), w')
         /\ Pg.error_shaped (Pg.on_failure c e) = true)
  /\ (forall w v w',
         Pg.guarded clk encode cosine_distance json_dumps str_datetime c w
         = (Returns v, w') ->
         Pg.run clk encode cosine_distance json_dumps str_datetime c w
         = (Returns v, w'))
  /\ (forall (isoformat : timestamp -> string)
             (dumps : list Json.snippet -> string)
             (jc : Json.call) (jw : Json.world),
         (Json.readable jw = true ->
          exists v jw', Json.run clk isoformat dumps jc jw = (Returns v, jw'))
         /\ (Json.readable jw = false ->
             Json.run clk isoformat dumps jc jw
             = (Raises (JSONDecodeError "Expecting value"), jw))).
Proof.
  split; [| split; [| split]].
  - intros w. rewrite pg_run_guarded.
    destruct (Pg.guarded _ _ _ _ _ c w) as [[v | e] w']; eauto.
  - intros w e w' H. rewrite pg_run_guarded, H.
    split; [reflexivity | apply pg_on_failure_shape].
  - intros w v w' H. now rewrite pg_run_guarded, H.
  - intros isoformat dumps jc jw. split.
    + apply json_run_readable.
    + apply json_run_corrupt.
Qed.

(** ** [ORDER BY] and [LIMIT] *)

Section OrderBy.

Context {A : Type}.
Variable le : A -> A -> bool.
Hypothesis le_total : forall x y, le x y = true \/ le y x = true.
Hypothesis le_trans : forall x y z, le x y = true -> le y z = true -> le x z = true.

Lemma insert_by_permutation (x : A) (l : list A) :
  Permutation (x :: l) (Pg.insert_by le x l).
Proof.
  induction l as [| y l IH]; simpl; [reflexivity |].
  destruct (le x y); [reflexivity |].
  rewrite perm_swap. now constructor.
Qed.

Lemma order_by_permutation (l : list A) :
  Permutation l (Pg.order_by le l).
Proof.
  induction l as [| x l IH]; simpl; [constructor |].
  rewrite <- insert_by_permutation. now constructor.
Qed.

Lemma order_by_In (x : A) (l : list A) :
  In x (Pg.order_by le l) <-> In x l.
Proof.
  split; apply Permutation_in;
    [symmetry |]; apply order_by_permutation.
Qed.

Lemma insert_by_sorted (x : A) (l : list A) :
  StronglySorted (fun a b => le a b = true) l ->
  StronglySorted (fun a b => le a b = true) (Pg.insert_by le x l).
Proof.
  induction 1 as [| y l Hl IH Hy]; simpl.
  - repeat constructor.
  - destruct (le x y) eqn:E.
    + constructor; [now constructor |].
      constructor; [exact E |].
      eapply Forall_impl; [| exact Hy]. simpl. intros z Hz.
      now apply (le_trans x y z).
    + constructor; [exact IH |].
      apply (Permutation_Forall (insert_by_permutation x l)).
      constructor; [| exact Hy].
      destruct (le_total x y) as [H | H]; [congruence | exact H].
Qed.

Lemma order_by_sorted (l : list A) :
  StronglySorted (fun a b => le a b = true) (Pg.order_by le l).
Proof.
  induction l as [| x l IH]; simpl; [constructor |].
  now apply insert_by_sorted.
Qed.

End OrderBy.


Lemma strongly_sorted_weaken {A : Type} (R S : A -> A -> Prop) (l : list A) :
  (forall a b, R a b -> S a b) ->
  StronglySorted R l -> StronglySorted S l.
Proof.
  intros HRS. induction 1 as [| x l Hl IH Hx]; constructor; auto.
  eapply Forall_impl; [| exact Hx]. auto.
Qed.


(** ** [LIKE] against substring search *)

Lemma like_any_run (p s : string) :
  Pg.like (String "%" p) s =
  Pg.like p s
  || match s with
     | EmptyString => false
     | String _ s' => Pg.like (String "%" p) s'
     end.
Proof. destruct s; reflexivity. Qed.

Lemma like_percent_alone (s : string) : Pg.like "%" s = true.
Proof.
  induction s as [| c s IH]; [reflexivity |].
  rewrite like_any_run. rewrite IH. apply orb_true_r.
Qed.





Lemma lower_app (a b : string) : lower (a ++ b) = lower a ++ lower b.
Proof. induction a as [| c a IH]; simpl; [reflexivity | now rewrite IH]. Qed.







(** ** Lexical search *)

Lemma filter_all {A : Type} (l : list A) : filter (fun _ => true) l = l.
Proof. induction l as [| x l IH]; simpl; [reflexivity | now rewrite IH]. Qed.



Lemma by_updated_desc_total (x y : Pg.row) :
  Pg.by_updated_desc x y = true \/ Pg.by_updated_desc y x = true.
Proof.
  unfold Pg.by_updated_desc.
  destruct (Z.leb_spec (Pg.updated_at y) (Pg.updated_at x)); [now left |].
  right. apply Z.leb_le. lia.
Qed.

Lemma by_updated_desc_trans (x y z : Pg.row) :
  Pg.by_updated_desc x y = true -> Pg.by_updated_desc y z = true ->
  Pg.by_updated_desc x z = true.
Proof.
  unfold Pg.by_updated_desc. rewrite !Z.leb_le. lia.
Qed.


(** C6, as the servers have it. The PostgreSQL server returns the matches of
    [search_snippets] most recently updated first, and all rows when neither a
    query nor tags are given. The JSON-file server returns the matches in the
    order in which they are stored (the order of creation), and the whole
    stored list when neither a query nor tags are given. *)
Theorem search_order :
  (forall (q : option string) (tg : option (list string)) (w : Pg.world),
      Pg.online w = true ->
      exists rows w',
        Pg.search_snippets q tg w
        = (Returns (map (fun r => Pg.Row (Pg.columns8 r)) rows), w')
        /\ StronglySorted
             (fun a b => Pg.updated_at b <= Pg.updated_at a) rows
        /\ Permutation rows
             (filter (pg_search_cond (dflt "" q) tg) (Pg.table w))
        /\ (truthy_str (dflt "" q) = false ->
            truthy_opt_list tg = false ->
            Permutation rows (Pg.table w)))
  /\ (forall (q : option string) (tg : option (list string)) (w : Json.world),
         Json.readable w = true ->
         Json.search_snippets q tg w
         = (Returns (filter (Json.selected (dflt "" q) tg)
                            (Json.snippets (Json.document w))), w)
         /\ (truthy_str (dflt "" q) = false ->
             truthy_opt_list tg = false ->
             Json.search_snippets q tg w
             = (Returns (Json.snippets (Json.document w)), w))).
Proof.
  split.
  - intros q tg w Ho.
    eexists _, _. split; [apply (pg_search_run q tg w Ho) |].
    split; [| split].
    + apply strongly_sorted_weaken
        with (R := fun a b => Pg.by_updated_desc a b = true).
      * unfold Pg.by_updated_desc. intros a b H. now apply Z.leb_le.
      * apply order_by_sorted;
          [exact by_updated_desc_total | exact by_updated_desc_trans].
    + symmetry. apply order_by_permutation.
    + intros Hq Htg. unfold pg_search_cond. rewrite Hq, Htg. simpl.
      rewrite filter_all. symmetry. apply order_by_permutation.
  - intros q tg w Hr. split; [apply (json_search_run q tg w Hr) |].
    intros Hq Htg. rewrite (json_search_run q tg w Hr).
    replace (filter _ _) with (Json.snippets (Json.document w)); [reflexivity |].
    rewrite <- (filter_all (Json.snippets (Json.document w))) at 1.
    apply filter_ext. intros s. unfold Json.selected. now rewrite Hq, Htg.
Qed.

(** ** Similarity search *)




Section Similarity.

Variable encode : string -> Pg.embedding.
Variable cosine_distance : Pg.embedding -> Pg.embedding -> Q.







End Similarity.



(** ** The properties at the sample stores *)

Lemma example_clock_monotone (n : nat) :
  Example.clock n <= Example.clock (S n).
Proof. unfold Example.clock. lia. Defined.


Lemma example_json_empty_well_formed : Json.well_formed Example.json_empty.
Proof. split; [reflexivity |]. split; constructor. Defined.

Lemma example_json_two_well_formed : Json.well_formed Example.json_two.
Proof.
  split; [reflexivity |]. split.
  - repeat constructor; simpl; intuition discriminate.
  - repeat constructor.
Defined.


Lemma example_pg_two_well_formed : pg_well_formed Example.pg_two.
Proof.
  split.
  - repeat constructor; simpl; intuition discriminate.
  - repeat constructor.
Defined.

(** C9 at the history create, create, delete 2, create, delete 1: the ids
    handed out are 1, 2, 3. *)
Lemma ids_unique_never_reused_witness :
  Json.well_formed Example.json_empty
  /\ fst (Json.run_ops Example.clock Example.history Example.json_empty)
     = [1; 2; 3]
  /\ StronglySorted Z.lt
       (fst (Json.run_ops Example.clock Example.history Example.json_empty))
  /\ Json.well_formed
       (snd (Json.run_ops Example.clock Example.history Example.json_empty)).
Proof.
  split; [exact example_json_empty_well_formed |].
  split; [reflexivity |].
  destruct (ids_unique_never_reused Example.clock) as (_ & _ & H).
  destruct (H Example.history Example.json_empty _ _
              example_json_empty_well_formed (surjective_pairing _))
    as (Hwf & Hsorted & _).
  split; assumption.
Defined.


(** C8 at the deletion of snippet 1 from the stores that hold two. *)
Lemma delete_then_absent_witness :
  (let w1 := snd (Json.delete_snippet 1 Example.json_two) in
   fst (Json.delete_snippet 1 Example.json_two)
   = Returns {| status := "success"; snippet_id := None;
                message := "Deleted snippet 1" |}
   /\ Json.get_snippet 1 w1 = (Returns None, w1)
   /\ fst (Json.delete_snippet 1 w1)
      = Returns {| status := "error"; snippet_id := None;
                   message := "Snippet 1 not found" |})
  /\ (let w1 := snd (Pg.delete_snippet 1 Example.pg_two) in
      Pg.get_snippet 1 w1 = (Returns None, w1)
      /\ fst (Pg.delete_snippet 1 w1)
         = Returns {| status := "error"; snippet_id := None;
                      message := "Snippet 1 not found" |}).
Proof.
  destruct delete_then_absent as [HJ HP].
  split.
  - intros w1.
    destruct (HJ 1 Example.json_two w1 _ eq_refl eq_refl) as [Hget Hdel].
    split; [reflexivity |]. split; [exact Hget |].
    rewrite Hdel. reflexivity.
  - intros w1.
    destruct (HP 1 Example.pg_two w1 _ eq_refl eq_refl) as [Hget Hdel].
    split; [exact Hget |]. rewrite Hdel. reflexivity.
Defined.

(** C5 at the Smith snippet with the new tags [["appeal"; "torts"]]. *)
Lemma update_tags_only_witness :
  Json.well_formed Example.json_two
  /\ In Example.json_smith (Json.snippets (Json.document Example.json_two))
  /\ pg_well_formed Example.pg_two
  /\ Pg.online Example.pg_two = true
  /\ In Example.pg_smith (Pg.table Example.pg_two)
  /\ (exists w' s',
        Json.update_snippet Example.clock 1 None None
                            (Some ["appeal"; "torts"]) None None
                            Example.json_two
        = (Returns {| status := "success"; snippet_id := None;
                      message := "Updated snippet 1" |}, w')
        /\ Json.get_snippet 1 w' = (Returns (Some s'), w')
        /\ Json.citation s' = Example.smith
        /\ Json.tags s' = ["appeal"; "torts"]
        /\ Json.updated_at s' = 4)
  /\ (exists w' r',
        Pg.update_snippet Example.clock Example.encode 1 None None
                          (Some ["appeal"; "torts"]) None None Example.pg_two
        = (Returns {| status := "success"; snippet_id := None;
                      message := "Updated snippet 1" |}, w')
        /\ Pg.get_snippet 1 w' = (Returns (Some (Pg.Row (Pg.columns8 r'))), w')
        /\ Pg.citation r' = Example.smith
        /\ Pg.tags r' = ["appeal"; "torts"]
        /\ Pg.updated_at r' = 2).
Proof.
  assert (HinJ : In Example.json_smith
                    (Json.snippets (Json.document Example.json_two)))
    by (left; reflexivity).
  assert (HinP : In Example.pg_smith (Pg.table Example.pg_two))
    by (left; reflexivity).
  assert (Htg : ["appeal"; "torts"] <> @nil string) by discriminate.
  split; [exact example_json_two_well_formed |].
  split; [exact HinJ |].
  split; [exact example_pg_two_well_formed |].
  split; [reflexivity |].
  split; [exact HinP |].
  destruct (update_tags_only Example.clock Example.encode) as [HJ HP].
  split.
  - destruct (HJ ["appeal"; "torts"] Example.json_two Example.json_smith
                 example_json_two_well_formed HinJ Htg)
      as (l1 & l2 & w' & _ & Hrun & _ & Hget).
    eexists w', _. split; [exact Hrun |]. split; [exact Hget |].
    repeat split.
  - destruct (HP ["appeal"; "torts"] Example.pg_two Example.pg_smith
                 example_pg_two_well_formed eq_refl HinP Htg)
      as (l1 & l2 & w' & _ & Hrun & _ & Hget).
    eexists w', _. split; [exact Hrun |]. split; [exact Hget |].
    repeat split.
Defined.

(** C10 at the Smith snippet: an update with empty strings and an empty
    list in the JSON-file server, and with no tags and no case type in the
    PostgreSQL server. *)
Lemma update_without_fields_witness :
  Json.well_formed Example.json_two
  /\ In Example.json_smith (Json.snippets (Json.document Example.json_two))
  /\ pg_well_formed Example.pg_two
  /\ Pg.online Example.pg_two = true
  /\ In Example.pg_smith (Pg.table Example.pg_two)
  /\ (exists w' s',
        Json.update_snippet Example.clock 1 (Some "") None (Some []) (Some "")
                            None Example.json_two
        = (Returns {| status := "success"; snippet_id := None;
                      message := "Updated snippet 1" |}, w')
        /\ Json.get_snippet 1 w' = (Returns (Some s'), w')
        /\ Json.citation s' = Example.smith
        /\ Json.tags s' = ["negligence"; "tort"]
        /\ Json.updated_at s' = 4)
  /\ (exists w' r',
        Pg.update_snippet Example.clock Example.encode 1 (Some "") None None
                          (Some "") None Example.pg_two
        = (Returns {| status := "success"; snippet_id := None;
                      message := "Updated snippet 1" |}, w')
        /\ Pg.get_snippet 1 w' = (Returns (Some (Pg.Row (Pg.columns8 r'))), w')
        /\ Pg.citation r' = Example.smith
        /\ Pg.tags r' = ["negligence"; "tort"]
        /\ Pg.case_type r' = "civil"
        /\ Pg.updated_at r' = 2).
Proof.
  assert (HinJ : In Example.json_smith
                    (Json.snippets (Json.document Example.json_two)))
    by (left; reflexivity).
  assert (HinP : In Example.pg_smith (Pg.table Example.pg_two))
    by (left; reflexivity).
  split; [exact example_json_two_well_formed |].
  split; [exact HinJ |].
  split; [exact example_pg_two_well_formed |].
  split; [reflexivity |].
  split; [exact HinP |].
  destruct (update_without_fields Example.clock Example.encode) as [HJ HP].
  split.
  - destruct (HJ (Some "") None (Some []) (Some "") None
                 Example.json_two Example.json_smith
                 example_json_two_well_formed HinJ
                 eq_refl eq_refl eq_refl eq_refl eq_refl)
      as (l1 & l2 & w' & _ & Hrun & _ & Hget).
    eexists w', _. split; [exact Hrun |]. split; [exact Hget |].
    repeat split.
  - destruct (HP (Some "") None None (Some "") None
                 Example.pg_two Example.pg_smith
                 example_pg_two_well_formed eq_refl HinP
                 eq_refl eq_refl eq_refl)
      as (l1 & l2 & w' & _ & Hrun & _ & Hget).
    eexists w', _. split; [exact Hrun |]. split; [exact Hget |].
    repeat split.
Defined.

(** C10 as the claim has it fails in the PostgreSQL server: an update of
    snippet 1 that passes the empty tags list and the empty case type, both
    falsy, answers [success] and leaves the row without tags and without case
    type, where it had the tags negligence and tort and the case type civil. *)
Lemma falsy_update_overwrites_in_postgres :
  exists w' d d',
    Pg.get_snippet 1 Example.pg_one
    = (Returns (Some (Pg.Row d)), Example.pg_one)
    /\ Pg.Dict.tags d = ["negligence"; "tort"]
    /\ Pg.Dict.case_type d = "civil"
    /\ truthy_opt_list (Some (@nil string)) = false
    /\ truthy_opt_str (Some "") = false
    /\ Pg.update_snippet Example.clock Example.encode 1 None None (Some [])
                         None (Some "") Example.pg_one
       = (Returns {| status := "success"; snippet_id := None;
                     message := "Updated snippet 1" |}, w')
    /\ Pg.get_snippet 1 w' = (Returns (Some (Pg.Row d')), w')
    /\ Pg.Dict.tags d' = []
    /\ Pg.Dict.case_type d' = ""
    /\ Pg.Dict.tags d' <> Pg.Dict.tags d
    /\ Pg.Dict.case_type d' <> Pg.Dict.case_type d.
Proof.
  eexists _, _, _.
  split; [reflexivity |]. split; [reflexivity |]. split; [reflexivity |].
  split; [reflexivity |]. split; [reflexivity |]. split; [reflexivity |].
  split; [reflexivity |]. split; [reflexivity |]. split; [reflexivity |].
  split; discriminate.
Qed.

(** C1 at [get_snippet 1] with the database out of reach: the statements
    under [try:] raise and the tool hands back its error dict. *)
Lemma tools_at_failure_witness :
  Pg.guarded Example.clock Example.encode Example.distance Example.json_dumps
             Example.str_datetime (Pg.GetSnippet 1) Example.pg_down
  = (Raises (OSError "connection refused"), Example.pg_down)
  /\ Pg.run Example.clock Example.encode Example.distance Example.json_dumps
            Example.str_datetime (Pg.GetSnippet 1) Example.pg_down
     = (Returns (Pg.VEntry (Some (Pg.Error
                   "Failed to get snippet: connection refused"))),
        Example.pg_down).
Proof.
  split; [reflexivity |].
  destruct (tools_at_failure Example.clock Example.encode Example.distance
              Example.json_dumps Example.str_datetime (Pg.GetSnippet 1))
    as (_ & H & _ & _).
  exact (proj1 (H Example.pg_down (OSError "connection refused")
                  Example.pg_down eq_refl)).
Defined.

(** C1 as the claim has it fails in the JSON-file server, which has no
    [try:] at all: with a file that does not parse, [create_snippet] lets the
    exception of [json.load] through to its caller. *)
Lemma json_create_raises_on_corrupt_file :
  Json.create_snippet Example.clock Example.smith "duty of care"
                      ["negligence"; "tort"] None None Example.json_corrupt
  = (Raises (JSONDecodeError "Expecting value"), Example.json_corrupt)
  /\ ~ never_raises
         (Json.create_snippet Example.clock Example.smith "duty of care"
                              ["negligence"; "tort"] None None).
Proof.
  split; [reflexivity |].
  intros H. destruct (H Example.json_corrupt) as (r & w' & E).
  discriminate E.
Qed.



(** C6 at the stores that hold two snippets, with no query and no tags. *)
Lemma search_order_witness :
  Pg.online Example.pg_two = true
  /\ Json.readable Example.json_two = true
  /\ (exists rows w',
        Pg.search_snippets None None Example.pg_two
        = (Returns (map (fun r => Pg.Row (Pg.columns8 r)) rows), w')
        /\ StronglySorted
             (fun a b => Pg.updated_at b <= Pg.updated_at a) rows
        /\ Permutation rows (Pg.table Example.pg_two))
  /\ Json.search_snippets None None Example.json_two
     = (Returns (Json.snippets (Json.document Example.json_two)),
        Example.json_two).
Proof.
  split; [reflexivity |]. split; [reflexivity |].
  destruct search_order as [HP HJ].
  split.
  - destruct (HP None None Example.pg_two eq_refl)
      as (rows & w' & Hrun & Hsorted & _ & Hall).
    exists rows, w'. split; [exact Hrun |]. split; [exact Hsorted |].
    apply Hall; reflexivity.
  - apply (HJ None None Example.json_two eq_refl); reflexivity.
Defined.

(** C6 as the claim has it fails in the JSON-file server, which does not
    sort: after two creations a search without criteria returns the older
    snippet first, its [updated_at] before that of the second. *)
Lemma json_search_returns_oldest_first :
  exists s1 s2,
    Json.search_snippets None None Example.json_two
    = (Returns [s1; s2], Example.json_two)
    /\ Json.updated_at s1 = 1
    /\ Json.updated_at s2 = 3
    /\ ~ StronglySorted (fun a b => Json.updated_at b <= Json.updated_at a)
                        [s1; s2].
Proof.
  eexists _, _. split; [reflexivity |]. split; [reflexivity |].
  split; [reflexivity |].
  intros H. inversion H as [| ? ? _ Hall]; subst.
  inversion Hall as [| ? ? Hle _]; subst. simpl in Hle. lia.
Qed.



(* ================================================================== *)
(** * Further properties of the two servers                             *)
(* ================================================================== *)

(** ** One call of the JSON-file server, by its effect on the file *)

Section JsonSteps.

Variable clk : nat -> timestamp.
Variable isoformat : timestamp -> string.
Variable json_dumps : list Json.snippet -> string.

Lemma json_lift_world {A : Type} (inj : A -> Json.value)
    (m : M Json.world A) (w : Json.world) :
  snd (Json.lift inj m w) = snd (m w).
Proof.
  unfold Json.lift, bind, ret. now destruct (m w) as [[a | e] w'].
Qed.

Lemma json_list_tags_run (w : Json.world) :
  Json.readable w = true ->
  Json.list_tags w =
  (Returns (sorted_set (flat_map Json.tags (Json.snippets (Json.document w)))),
   w).
Proof.
  intros Hr. unfold Json.list_tags, bind. now rewrite (json_load_readable w Hr).
Qed.

Lemma json_export_run (f : option string) (w : Json.world) :
  Json.readable w = true ->
  Json.export_snippets isoformat json_dumps f w =
  (Returns (if String.eqb (dflt "json" f) "text"
            then join "" (map (Json.export_text isoformat)
                              (Json.snippets (Json.document w)))
            else json_dumps (Json.snippets (Json.document w))), w).
Proof.
  intros Hr. unfold Json.export_snippets, bind.
  rewrite (json_load_readable w Hr). now destruct (String.eqb _ _).
Qed.

(** A call leaves the world as it was, or it is a creation that appends a
    snippet, an update that rewrites the first snippet with the id, or a
    deletion that drops the snippets with the id. *)
Lemma json_step (c : Json.call) (w : Json.world) :
  snd (Json.run clk isoformat json_dumps c w) = w
  \/ (exists ci kl tg cx ct,
        c = Json.CreateSnippet ci kl tg cx ct
        /\ Json.readable w = true
        /\ snd (Json.run clk isoformat json_dumps c w) =
           {| Json.disk :=
                Json.Stored
                  {| Json.snippets :=
                       (Json.snippets (Json.document w)
                        ++ [json_created clk ci kl tg cx ct w])%list;
                     Json.next_id := Json.next_id (Json.document w) + 1 |};
              Json.reads := S (S (Json.reads w)) |})
  \/ (exists i ci kl tg cx ct l1 s l2,
        c = Json.UpdateSnippet i ci kl tg cx ct
        /\ Json.readable w = true
        /\ Json.snippets (Json.document w) = (l1 ++ s :: l2)%list
        /\ Forall (fun y => (Json.id y =? i) = false) l1
        /\ (Json.id s =? i) = true
        /\ snd (Json.run clk isoformat json_dumps c w) =
           {| Json.disk :=
                Json.Stored
                  {| Json.snippets :=
                       (l1 ++ Json.assign ci kl tg cx ct (clk (Json.reads w)) s
                           :: l2)%list;
                     Json.next_id := Json.next_id (Json.document w) |};
              Json.reads := S (Json.reads w) |})
  \/ (exists i,
        c = Json.DeleteSnippet i
        /\ Json.readable w = true
        /\ snd (Json.run clk isoformat json_dumps c w) =
           {| Json.disk :=
                Json.Stored
                  {| Json.snippets :=
                       filter (fun s => negb (Json.id s =? i))
                              (Json.snippets (Json.document w));
                     Json.next_id := Json.next_id (Json.document w) |};
              Json.reads := Json.reads w |}).
Proof.
  destruct (Json.readable w) eqn:Hr.
  - destruct c as [ci kl tg cx ct | q tg | i | i ci kl tg cx ct | i | | f];
      simpl; rewrite json_lift_world.
    + right. left. exists ci, kl, tg, cx, ct.
      rewrite (json_create_run clk ci kl tg cx ct w Hr). auto.
    + left. now rewrite (json_search_run q tg w Hr).
    + left. now rewrite (json_get_run i w Hr).
    + destruct (find (fun y => Json.id y =? i)
                     (Json.snippets (Json.document w))) as [s |] eqn:Hf.
      * destruct (split_first _ _ _ Hf) as (l1 & l2 & Hl & Hs & Hl1).
        right. right. left. exists i, ci, kl, tg, cx, ct, l1, s, l2.
        rewrite (json_update_hit clk i ci kl tg cx ct l1 s l2 w Hr Hl Hl1 Hs).
        auto 7.
      * left. now rewrite (json_update_miss clk i ci kl tg cx ct w Hr Hf).
    + rewrite (json_delete_run i w Hr).
      destruct (existsb _ _); [| now left].
      right. right. right. exists i. auto.
    + left. now rewrite (json_list_tags_run w Hr).
    + left. now rewrite (json_export_run f w Hr).
  - left. now rewrite (json_run_corrupt clk isoformat json_dumps c w Hr).
Qed.

End JsonSteps.

(** ** Lookups by key in a list that changes *)

Lemma find_app_split {A : Type} (p : A -> bool) (l1 l2 : list A) :
  find p (l1 ++ l2) =
  match find p l1 with Some x => Some x | None => find p l2 end.
Proof.
  induction l1 as [| x l1 IH]; simpl; [reflexivity |].
  now destruct (p x).
Qed.

Lemma find_none_forall {A : Type} (p : A -> bool) (l : list A) :
  Forall (fun y => p y = false) l -> find p l = None.
Proof.
  induction 1 as [| y l Hy _ IH]; simpl; [reflexivity |]. now rewrite Hy.
Qed.

Lemma find_filter_keep {A : Type} (p q : A -> bool) (l : list A) :
  (forall x, p x = true -> q x = true) ->
  find p (filter q l) = find p l.
Proof.
  intros Hpq. induction l as [| x l IH]; simpl; [reflexivity |].
  destruct (q x) eqn:Eq; simpl.
  - now destruct (p x).
  - destruct (p x) eqn:Ep; [| exact IH].
    rewrite (Hpq x Ep) in Eq. discriminate.
Qed.

(** Replacing one element by another that fails [p] as the first did. *)
Lemma find_replace_other {A : Type} (p : A -> bool) (l1 l2 : list A)
    (x x' : A) :
  p x = false -> p x' = false ->
  find p (l1 ++ x' :: l2) = find p (l1 ++ x :: l2).
Proof.
  intros Hx Hx'. rewrite !find_app_split. simpl. now rewrite Hx, Hx'.
Qed.

Lemma monotone_clock (clk : nat -> timestamp) :
  (forall n, clk n <= clk (S n)) ->
  forall n m, (n <= m)%nat -> clk n <= clk m.
Proof.
  intros Hmono n m Hnm. induction Hnm as [| m _ IH]; [lia |].
  specialize (Hmono m). lia.
Qed.

(** ** What every call of the JSON-file server keeps *)

Lemma json_document_stored (d : Json.data) (n : nat) :
  Json.document {| Json.disk := Json.Stored d; Json.reads := n |} = d.
Proof. reflexivity. Qed.

Arguments Json.document w : simpl never.

Section JsonInvariants.

Variable clk : nat -> timestamp.
Variable isoformat : timestamp -> string.
Variable json_dumps : list Json.snippet -> string.
Hypothesis clk_monotone : forall n, clk n <= clk (S n).

Lemma json_assign_id ci kl tg cx ct t s :
  Json.id (Json.assign ci kl tg cx ct t s) = Json.id s.
Proof. reflexivity. Qed.

Lemma json_call_keeps_well_formed (c : Json.call) (w : Json.world) :
  Json.well_formed w ->
  Json.well_formed (snd (Json.run clk isoformat json_dumps c w))
  /\ Json.next_id (Json.document w)
     <= Json.next_id
          (Json.document (snd (Json.run clk isoformat json_dumps c w)))
  /\ (Json.reads w
      <= Json.reads (snd (Json.run clk isoformat json_dumps c w)))%nat.
Proof.
  intros Hwf.
  destruct (json_step clk isoformat json_dumps c w)
    as [-> | [(ci & kl & tg & cx & ct & -> & Hr & ->)
           | [(i & ci & kl & tg & cx & ct & l1 & s & l2 & -> & Hr & Hl & Hl1
               & Hs & ->)
             | (i & -> & Hr & ->)]]].
  - split; [exact Hwf | split; lia].
  - pose proof (json_create_keeps_well_formed clk ci kl tg cx ct w Hwf) as H.
    rewrite (json_create_run clk ci kl tg cx ct w Hr) in H.
    split; [exact H |]. rewrite json_document_stored. simpl. split; lia.
  - destruct Hwf as (_ & Hnd & Hlt).
    unfold Json.well_formed. rewrite json_document_stored. simpl.
    rewrite Hl in Hnd, Hlt.
    split; [| split; lia]. split; [reflexivity |]. split.
    + rewrite map_app in *. simpl in *. exact Hnd.
    + apply Forall_app in Hlt as [H1 H2].
      inversion H2 as [| ? ? Hs2 Hl2]; subst.
      apply Forall_app. split; [exact H1 |]. constructor; assumption.
  - pose proof (json_delete_keeps_well_formed i w Hwf) as H.
    rewrite (json_delete_run i w Hr) in H.
    destruct (existsb _ _) eqn:E.
    + split; [exact H |]. rewrite json_document_stored. simpl. split; lia.
    + split.
      * destruct Hwf as (_ & Hnd & Hlt).
        unfold Json.well_formed. rewrite json_document_stored. simpl.
        split; [reflexivity |]. split.
        -- now apply NoDup_map_filter.
        -- apply Forall_forall. intros s Hs. apply filter_In in Hs as [Hs _].
           rewrite Forall_forall in Hlt. now apply Hlt.
      * rewrite json_document_stored. simpl. split; lia.
Qed.

Lemma json_call_keeps_timely (c : Json.call) (w : Json.world) :
  json_timely clk w ->
  json_timely clk (snd (Json.run clk isoformat json_dumps c w)).
Proof.
  intros Ht.
  pose proof (monotone_clock clk clk_monotone) as Hle.
  destruct (json_step clk isoformat json_dumps c w)
    as [-> | [(ci & kl & tg & cx & ct & -> & Hr & ->)
           | [(i & ci & kl & tg & cx & ct & l1 & s & l2 & -> & Hr & Hl & Hl1
               & Hs & ->)
             | (i & -> & Hr & ->)]]];
    unfold json_timely in *.
  - exact Ht.
  - rewrite json_document_stored. simpl. apply Forall_app. split.
    + eapply Forall_impl; [| exact Ht]. simpl. intros s [H1 H2].
      split; [exact H1 |].
      specialize (Hle (Json.reads w) (S (S (Json.reads w)))). lia.
    + constructor; [| constructor]. simpl.
      pose proof (clk_monotone (Json.reads w)).
      pose proof (clk_monotone (S (Json.reads w))). lia.
  - rewrite json_document_stored. simpl. rewrite Hl in Ht.
    apply Forall_app in Ht as [H1 H2].
    inversion H2 as [| ? ? Hs2 Hl2]; subst.
    pose proof (clk_monotone (Json.reads w)) as Hn.
    apply Forall_app. split; [| constructor].
    + eapply Forall_impl; [| exact H1]. simpl. intros x [Hx1 Hx2]. lia.
    + simpl. lia.
    + eapply Forall_impl; [| exact Hl2]. simpl. intros x [Hx1 Hx2]. lia.
  - rewrite json_document_stored. simpl.
    apply Forall_forall. intros s Hs. apply filter_In in Hs as [Hs _].
    rewrite Forall_forall in Ht. now apply Ht.
Qed.

Lemma json_ages_refl (w : Json.world) : json_ages w w.
Proof. intros i s' Hf _. exists s'. split; [exact Hf | split; [reflexivity | lia]]. Qed.

Lemma json_ages_trans (w1 w2 w3 : Json.world) :
  Json.next_id (Json.document w1) <= Json.next_id (Json.document w2) ->
  json_ages w1 w2 -> json_ages w2 w3 -> json_ages w1 w3.
Proof.
  intros Hn H12 H23 i s3 Hf Hi.
  destruct (H23 i s3 Hf) as (s2 & Hf2 & Hc2 & Hu2); [lia |].
  destruct (H12 i s2 Hf2 Hi) as (s1 & Hf1 & Hc1 & Hu1).
  exists s1. split; [exact Hf1 |]. split; [congruence | lia].
Qed.

Lemma json_call_ages (c : Json.call) (w : Json.world) :
  Json.well_formed w -> json_timely clk w ->
  json_ages w (snd (Json.run clk isoformat json_dumps c w)).
Proof.
  intros (_ & Hnd & Hlt) Ht.
  destruct (json_step clk isoformat json_dumps c w)
    as [-> | [(ci & kl & tg & cx & ct & -> & Hr & ->)
           | [(j & ci & kl & tg & cx & ct & l1 & s & l2 & -> & Hr & Hl & Hl1
               & Hs & ->)
             | (j & -> & Hr & ->)]]].
  - apply json_ages_refl.
  - intros i s' Hf Hi. rewrite json_document_stored in Hf. simpl in Hf.
    rewrite find_app_split in Hf.
    destruct (find _ (Json.snippets (Json.document w))) as [s |] eqn:E.
    + injection Hf as <-. exists s.
      split; [reflexivity | split; [reflexivity | lia]].
    + simpl in Hf.
      destruct (Json.next_id (Json.document w) =? i) eqn:E2; [| discriminate].
      apply Z.eqb_eq in E2. lia.
  - intros i s' Hf Hi. rewrite json_document_stored in Hf. simpl in Hf.
    rewrite Hl. unfold json_timely in Ht. rewrite Hl in Ht.
    apply Forall_app in Ht as [_ Ht2].
    inversion Ht2 as [| ? ? [Hs1 Hs2] _]; subst.
    apply Z.eqb_eq in Hs.
    destruct (Z.eq_dec i j) as [-> | Hij].
    + rewrite find_app_first in Hf by (auto; simpl; apply Z.eqb_eq; exact Hs).
      injection Hf as <-. exists s.
      split; [apply find_app_first; auto; apply Z.eqb_eq; exact Hs |].
      split; [reflexivity | simpl; exact Hs2].
    + rewrite (find_replace_other _ l1 l2 s) in Hf
        by (simpl; apply Z.eqb_neq; lia).
      exists s'. split; [exact Hf | split; [reflexivity | lia]].
  - intros i s' Hf Hi. rewrite json_document_stored in Hf. simpl in Hf.
    destruct (Z.eq_dec i j) as [-> | Hij].
    + rewrite (find_filter_out (fun s => Json.id s =? j)) in Hf. discriminate.
    + rewrite find_filter_keep in Hf.
      * exists s'. split; [exact Hf | split; [reflexivity | lia]].
      * intros x Hx. apply Z.eqb_eq in Hx. apply negb_true_iff.
        apply Z.eqb_neq. lia.
Qed.

(** Along a history of calls of any of the seven tools. *)
Lemma json_calls_keep (calls : list Json.call) :
  forall w,
    Json.well_formed w -> json_timely clk w ->
    Json.well_formed (json_run_calls clk isoformat json_dumps calls w)
    /\ json_timely clk (json_run_calls clk isoformat json_dumps calls w)
    /\ Json.next_id (Json.document w)
       <= Json.next_id
            (Json.document (json_run_calls clk isoformat json_dumps calls w))
    /\ json_ages w (json_run_calls clk isoformat json_dumps calls w).
Proof.
  induction calls as [| c calls IH]; intros w Hwf Ht; simpl.
  - split; [exact Hwf |]. split; [exact Ht |]. split; [lia |].
    apply json_ages_refl.
  - destruct (json_call_keeps_well_formed c w Hwf) as (Hwf1 & Hn1 & _).
    pose proof (json_call_keeps_timely c w Ht) as Ht1.
    pose proof (json_call_ages c w Hwf Ht) as Ha1.
    destruct (IH _ Hwf1 Ht1) as (Hwf2 & Ht2 & Hn2 & Ha2).
    split; [exact Hwf2 |]. split; [exact Ht2 |]. split; [lia |].
    eapply json_ages_trans; eauto.
Qed.

End JsonInvariants.

(** ** One call of the PostgreSQL server, by its effect on the database *)

Section PgSteps.

Variable clk : nat -> timestamp.
Variable encode : string -> Pg.embedding.
Variable cosine_distance : Pg.embedding -> Pg.embedding -> Q.
Variable json_dumps : list Pg.Dict.t -> string.
Variable str_datetime : timestamp -> string.

Lemma keeps_db_ret {A : Type} (a : A) : keeps_db (ret (W := Pg.world) a).
Proof. intros w. reflexivity. Qed.

Lemma keeps_db_bind {A B : Type} (m : M Pg.world A) (k : A -> M Pg.world B) :
  keeps_db m -> (forall a, keeps_db (k a)) -> keeps_db (bind m k).
Proof.
  intros Hm Hk w. unfold bind. specialize (Hm w).
  destruct (m w) as [[a | e] w1]; simpl in *; [| exact Hm].
  now rewrite (Hk a w1).
Qed.

Lemma keeps_db_try {A : Type} (m : M Pg.world A) (h : exn -> A) :
  keeps_db m -> keeps_db (try_except m (fun e => ret (h e))).
Proof.
  intros Hm w. unfold try_except, ret. specialize (Hm w).
  now destruct (m w) as [[a | e] w1].
Qed.

Lemma keeps_db_lift {A : Type} (inj : A -> Pg.value) (m : M Pg.world A) :
  keeps_db m -> keeps_db (Pg.lift inj m).
Proof.
  intros Hm. unfold Pg.lift. apply keeps_db_bind; [exact Hm |].
  intros a. apply keeps_db_ret.
Qed.

Lemma keeps_db_get_db : keeps_db Pg.get_db.
Proof.
  intros w. unfold Pg.get_db. destruct w as [tbl ser rds rch mav pl mdl].
  destruct rch, pl, mdl, mav; reflexivity.
Qed.

Lemma keeps_db_encode_text (text : string) :
  keeps_db (Pg.encode_text encode text).
Proof. intros w. unfold Pg.encode_text. now destruct (Pg.model w). Qed.


Lemma keeps_db_fetch cond le : keeps_db (Pg.fetch cond le).
Proof. intros w. reflexivity. Qed.

Lemma keeps_db_fetch_limit cond le n : keeps_db (Pg.fetch_limit cond le n).
Proof. intros w. reflexivity. Qed.

Lemma keeps_db_fetchrow i : keeps_db (Pg.fetchrow_by_id i).
Proof. intros w. reflexivity. Qed.

Lemma keeps_db_search_body q tg : keeps_db (Pg.search_snippets_body q tg).
Proof.
  unfold Pg.search_snippets_body.
  apply keeps_db_bind; [apply keeps_db_get_db | intros _].
  apply keeps_db_bind; [| intros ?; apply keeps_db_ret].
  destruct (truthy_str q && truthy_opt_list tg);
    [| destruct (truthy_str q); [| destruct (truthy_opt_list tg)]];
    apply keeps_db_fetch.
Qed.

Lemma keeps_db_search q tg : keeps_db (Pg.search_snippets q tg).
Proof. apply keeps_db_try, keeps_db_search_body. Qed.

Lemma keeps_db_semantic_body q li th tg :
  keeps_db (Pg.semantic_search_body encode cosine_distance q li th tg).
Proof.
  unfold Pg.semantic_search_body.
  apply keeps_db_bind; [apply keeps_db_encode_text | intros qe].
  apply keeps_db_bind; [apply keeps_db_get_db | intros _].
  apply keeps_db_bind; [| intros ?; apply keeps_db_ret].
  destruct (truthy_opt_list tg); apply keeps_db_fetch_limit.
Qed.

Lemma keeps_db_semantic q li th tg :
  keeps_db (Pg.semantic_search encode cosine_distance q li th tg).
Proof. apply keeps_db_try, keeps_db_semantic_body. Qed.

Lemma keeps_db_get_body i : keeps_db (Pg.get_snippet_body i).
Proof.
  unfold Pg.get_snippet_body.
  apply keeps_db_bind; [apply keeps_db_get_db | intros _].
  apply keeps_db_bind; [apply keeps_db_fetchrow | intros ?; apply keeps_db_ret].
Qed.

Lemma keeps_db_get i : keeps_db (Pg.get_snippet i).
Proof. apply keeps_db_try, keeps_db_get_body. Qed.

Lemma keeps_db_list_tags_body : keeps_db Pg.list_tags_body.
Proof.
  unfold Pg.list_tags_body.
  apply keeps_db_bind; [apply keeps_db_get_db | intros _].
  intros w. reflexivity.
Qed.

Lemma keeps_db_list_tags : keeps_db Pg.list_tags.
Proof. apply keeps_db_try, keeps_db_list_tags_body. Qed.

Lemma keeps_db_export_body f :
  keeps_db (Pg.export_snippets_body json_dumps str_datetime f).
Proof.
  unfold Pg.export_snippets_body.
  apply keeps_db_bind; [apply keeps_db_get_db | intros _].
  apply keeps_db_bind; [apply keeps_db_fetch | intros rows].
  destruct (String.eqb _ _); apply keeps_db_ret.
Qed.

Lemma keeps_db_export f :
  keeps_db (Pg.export_snippets json_dumps str_datetime f).
Proof. apply keeps_db_try, keeps_db_export_body. Qed.

Lemma keeps_db_find_similar_body i li :
  keeps_db (Pg.find_similar_snippets_body cosine_distance i li).
Proof.
  unfold Pg.find_similar_snippets_body.
  apply keeps_db_bind; [apply keeps_db_get_db | intros _].
  apply keeps_db_bind; [apply keeps_db_fetchrow | intros [ref |]].
  - apply keeps_db_bind; [apply keeps_db_fetch_limit | intros ?].
    apply keeps_db_ret.
  - apply keeps_db_ret.
Qed.

Lemma keeps_db_find_similar i li :
  keeps_db (Pg.find_similar_snippets cosine_distance i li).
Proof. apply keeps_db_try, keeps_db_find_similar_body. Qed.

End PgSteps.

Section PgWrites.

Variable clk : nat -> timestamp.
Variable encode : string -> Pg.embedding.


Lemma pg_create_unloaded ci kl tg cx ct (w : Pg.world) :
  Pg.model w = false ->
  Pg.create_snippet clk encode ci kl tg cx ct w =
  (Returns (Pg.create_snippet_failed
              (RuntimeError "Embedding model not initialized")), w).
Proof.
  intros Hm. unfold Pg.create_snippet, Pg.create_snippet_body, try_except.
  unfold bind at 1. now rewrite (pg_generate_embeddings_unloaded _ _ _ _ w Hm).
Qed.




(** [update_snippet]: what it answers and what it leaves, case by case. *)
Lemma pg_update_run i ci kl tg cx ct (w : Pg.world) :
  Pg.online w = true ->
  Pg.update_snippet clk encode i ci kl tg cx ct w =
  match find (fun r => Pg.id r =? i) (Pg.table w) with
  | None =>
      (Returns {| status := "error"; snippet_id := None;
                  message := "Snippet " ++ str_int i ++ " not found" |},
       pg_connected w)
  | Some current =>
      if (truthy_opt_str ci || truthy_opt_str kl || truthy_opt_str cx)
         && negb (Pg.model (pg_connected w)) then
        (Returns (Pg.update_snippet_failed
                    (RuntimeError "Embedding model not initialized")),
         pg_connected w)
      else
        (Returns {| status := "success"; snippet_id := None;
                    message := "Updated snippet " ++ str_int i |},
         {| Pg.table :=
              map (fun r => if Pg.id r =? i
                            then pg_update_set encode ci kl tg cx ct current
                                               (clk (Pg.reads w)) r
                            else r) (Pg.table w);
            Pg.next_serial := Pg.next_serial w;
            Pg.reads := S (Pg.reads w);
            Pg.reachable := Pg.reachable w;
            Pg.model_available := Pg.model_available w;
            Pg.pool := true;
            Pg.model := Pg.model (pg_connected w) |})
  end.
Proof.
  intros Ho. unfold Pg.update_snippet, Pg.update_snippet_body, try_except.
  unfold bind at 1. rewrite (pg_get_db_online w Ho).
  unfold bind at 1. unfold Pg.fetchrow_by_id at 1. rewrite pg_connected_table.
  destruct (find _ (Pg.table w)) as [current |]; [| reflexivity].
  unfold pg_update_set.
  destruct (truthy_opt_str ci || truthy_opt_str kl || truthy_opt_str cx).
  - destruct (Pg.model (pg_connected w)) eqn:Hm; simpl.
    + unfold bind at 1. unfold bind at 1.
      rewrite (pg_generate_embeddings_run encode _ _ _ _ Hm).
      unfold Pg.update_by_id, Pg.current_timestamp, bind, ret. simpl.
      rewrite pg_connected_table, pg_connected_serial, pg_connected_reads.
      rewrite pg_connected_has_pool, Hm.
      unfold Pg.online in Ho. unfold pg_connected.
      destruct (Pg.pool w); reflexivity.
    + unfold bind at 1. unfold bind at 1.
      rewrite (pg_generate_embeddings_unloaded encode _ _ _ _ Hm).
      reflexivity.
  - simpl. unfold bind, Pg.update_by_id, Pg.current_timestamp, ret. simpl.
    rewrite pg_connected_table, pg_connected_serial, pg_connected_reads.
    rewrite pg_connected_has_pool.
    unfold Pg.online in Ho. unfold pg_connected.
    destruct (Pg.pool w); reflexivity.
Qed.


End PgWrites.

(** ** What every call of the PostgreSQL server keeps *)


Section PgInvariants.

Variable clk : nat -> timestamp.
Variable encode : string -> Pg.embedding.
Variable cosine_distance : Pg.embedding -> Pg.embedding -> Q.
Variable json_dumps : list Pg.Dict.t -> string.
Variable str_datetime : timestamp -> string.
Hypothesis clk_monotone : forall n, clk n <= clk (S n).

Local Abbreviation after c w :=
  (snd (Pg.run clk encode cosine_distance json_dumps str_datetime c w)).



Lemma pg_update_set_id ci kl tg cx ct current ts r :
  Pg.id (pg_update_set encode ci kl tg cx ct current ts r) = Pg.id r.
Proof. unfold pg_update_set. now destruct (_ || _ || _). Qed.










End PgInvariants.

Lemma json_calls_keep_well_formed (clk : nat -> timestamp)
    (isoformat : timestamp -> string)
    (json_dumps : list Json.snippet -> string) (calls : list Json.call) :
  forall w,
    Json.well_formed w ->
    Json.well_formed (json_run_calls clk isoformat json_dumps calls w)
    /\ Json.next_id (Json.document w)
       <= Json.next_id
            (Json.document (json_run_calls clk isoformat json_dumps calls w)).
Proof.
  induction calls as [| c calls IH]; intros w Hwf; simpl.
  - split; [exact Hwf | lia].
  - destruct (json_call_keeps_well_formed clk isoformat json_dumps c w Hwf)
      as (Hwf1 & Hn1 & _).
    destruct (IH _ Hwf1) as (Hwf2 & Hn2).
    split; [exact Hwf2 | lia].
Qed.

Section PgHistories.

Variable clk : nat -> timestamp.
Variable encode : string -> Pg.embedding.
Variable cosine_distance : Pg.embedding -> Pg.embedding -> Q.
Variable json_dumps : list Pg.Dict.t -> string.
Variable str_datetime : timestamp -> string.

Local Abbreviation history calls w :=
  (pg_run_calls clk encode cosine_distance json_dumps str_datetime calls w).




End PgHistories.

(** X1. In the JSON-file server, along every sequence of calls of the seven
    tools (updates, searches and exports included) from a store whose ids
    are pairwise distinct and below [next_id], the stored ids stay pairwise
    distinct and below [next_id], and [next_id] never decreases. *)
Theorem json_ids_along_calls (clk : nat -> timestamp)
    (isoformat : timestamp -> string)
    (json_dumps : list Json.snippet -> string)
    (calls : list Json.call) (w : Json.world) :
  Json.well_formed w ->
  Json.well_formed (json_run_calls clk isoformat json_dumps calls w)
  /\ Json.next_id (Json.document w)
     <= Json.next_id
          (Json.document (json_run_calls clk isoformat json_dumps calls w)).
Proof. apply json_calls_keep_well_formed. Qed.

Lemma json_ids_along_calls_witness :
  Json.well_formed Example.json_empty
  /\ Json.well_formed
       (json_run_calls Example.clock Sample.isoformat Sample.json_dumps
                       Sample.calls Example.json_empty)
  /\ map Json.id
       (Json.snippets
          (Json.document
             (json_run_calls Example.clock Sample.isoformat Sample.json_dumps
                             Sample.calls Example.json_empty)))
     = [1].
Proof.
  split; [exact example_json_empty_well_formed |].
  split; [| reflexivity].
  exact (proj1 (json_ids_along_calls Example.clock Sample.isoformat
                  Sample.json_dumps Sample.calls Example.json_empty
                  example_json_empty_well_formed)).
Defined.

(** X2. In the JSON-file server, with a clock that never runs backwards,
    along every sequence of tool calls: every stored snippet has
    [created_at <= updated_at] and no time stamp ahead of the clock; and a
    snippet that is stored at the end under an id that had already been handed
    out at the start was stored at the start under that id, with the same
    [created_at] and an [updated_at] that is not later. *)
Theorem json_times_along_calls (clk : nat -> timestamp)
    (isoformat : timestamp -> string)
    (json_dumps : list Json.snippet -> string)
    (clk_monotone : forall n, clk n <= clk (S n))
    (calls : list Json.call) (w : Json.world) :
  Json.well_formed w ->
  json_timely clk w ->
  json_timely clk (json_run_calls clk isoformat json_dumps calls w)
  /\ json_ages w (json_run_calls clk isoformat json_dumps calls w).
Proof.
  intros Hwf Ht.
  destruct (json_calls_keep clk isoformat json_dumps clk_monotone calls w
              Hwf Ht) as (_ & Ht' & _ & Ha).
  now split.
Qed.

Lemma json_times_along_calls_witness :
  (forall n, Example.clock n <= Example.clock (S n))
  /\ Json.well_formed Example.json_two
  /\ json_timely Example.clock Example.json_two
  /\ json_timely Example.clock
       (json_run_calls Example.clock Sample.isoformat Sample.json_dumps
                       Sample.calls Example.json_two)
  /\ json_ages Example.json_two
       (json_run_calls Example.clock Sample.isoformat Sample.json_dumps
                       Sample.calls Example.json_two).
Proof.
  assert (Ht : json_timely Example.clock Example.json_two).
  { unfold json_timely. repeat constructor; simpl; discriminate. }
  split; [exact example_clock_monotone |].
  split; [exact example_json_two_well_formed |].
  split; [exact Ht |].
  exact (json_times_along_calls Example.clock Sample.isoformat
           Sample.json_dumps example_clock_monotone Sample.calls
           Example.json_two example_json_two_well_formed Ht).
Defined.







(** ** Reading tools, and calls on an id that is not stored *)

(** X6. The four reading tools of the JSON-file server ([search_snippets],
    [get_snippet], [list_tags], [export_snippets]) leave the file and the
    clock as they were on every world, whether they return or raise: they
    never write and never create the file. *)
Theorem json_reads_change_nothing (isoformat : timestamp -> string)
    (json_dumps : list Json.snippet -> string)
    (q : option string) (tg : option (list string)) (i : Z)
    (f : option string) (w : Json.world) :
  snd (Json.search_snippets q tg w) = w
  /\ snd (Json.get_snippet i w) = w
  /\ snd (Json.list_tags w) = w
  /\ snd (Json.export_snippets isoformat json_dumps f w) = w.
Proof.
  destruct (Json.readable w) eqn:Hr.
  - rewrite (json_search_run q tg w Hr), (json_get_run i w Hr),
      (json_list_tags_run w Hr), (json_export_run isoformat json_dumps f w Hr).
    repeat split.
  - unfold Json.search_snippets, Json.get_snippet, Json.list_tags,
      Json.export_snippets, bind.
    rewrite (json_load_corrupt w Hr). repeat split.
Qed.

(** X7. The six reading tools of the PostgreSQL server ([search_snippets],
    [semantic_search], [get_snippet], [list_tags], [export_snippets],
    [find_similar_snippets]) leave the table, the id sequence and the clock
    as they were on every world, whether the database answers or not. *)
Theorem pg_reads_change_nothing
    (encode : string -> Pg.embedding)
    (cosine_distance : Pg.embedding -> Pg.embedding -> Q)
    (json_dumps : list Pg.Dict.t -> string)
    (str_datetime : timestamp -> string)
    (q : option string) (query : string) (tg : option (list string))
    (limit : option Z) (thr : option Q) (i : Z) (f : option string)
    (w : Pg.world) :
  pg_database (snd (Pg.search_snippets q tg w)) = pg_database w
  /\ pg_database (snd (Pg.semantic_search encode cosine_distance query limit
                                          thr tg w)) = pg_database w
  /\ pg_database (snd (Pg.get_snippet i w)) = pg_database w
  /\ pg_database (snd (Pg.list_tags w)) = pg_database w
  /\ pg_database (snd (Pg.export_snippets json_dumps str_datetime f w))
     = pg_database w
  /\ pg_database (snd (Pg.find_similar_snippets cosine_distance i limit w))
     = pg_database w.
Proof.
  split; [apply keeps_db_search |].
  split; [apply keeps_db_semantic |].
  split; [apply keeps_db_get |].
  split; [apply keeps_db_list_tags |].
  split; [apply keeps_db_export | apply keeps_db_find_similar].
Qed.

Lemma filter_keeps_all {A : Type} (p : A -> bool) (l : list A) :
  Forall (fun x => p x = true) l -> filter p l = l.
Proof.
  induction 1 as [| x l Hx _ IH]; simpl; [reflexivity |].
  now rewrite Hx, IH.
Qed.

Lemma find_none_all_false {A : Type} (p : A -> bool) (l : list A) :
  find p l = None -> Forall (fun x => p x = false) l.
Proof.
  induction l as [| x l IH]; simpl; intros H; [constructor |].
  destruct (p x) eqn:E; [discriminate |]. constructor; auto.
Qed.

(** X8. In the JSON-file server, for an id that no stored snippet carries
    (the file being absent or holding a document): [get_snippet] returns
    [None], and [update_snippet] and [delete_snippet] return the status
    ["error"] with the message "Snippet <id> not found" and leave the file and
    the clock as they were; the update does not read the clock and neither
    call creates an absent file. *)
Theorem json_unknown_id (clk : nat -> timestamp) (i : Z)
    (ci kl : option string) (tg : option (list string))
    (cx ct : option string) (w : Json.world) :
  Json.readable w = true ->
  find (fun s => Json.id s =? i) (Json.snippets (Json.document w)) = None ->
  Json.get_snippet i w = (Returns None, w)
  /\ Json.update_snippet clk i ci kl tg cx ct w
     = (Returns {| status := "error"; snippet_id := None;
                   message := "Snippet " ++ str_int i ++ " not found" |}, w)
  /\ Json.delete_snippet i w
     = (Returns {| status := "error"; snippet_id := None;
                   message := "Snippet " ++ str_int i ++ " not found" |}, w).
Proof.
  intros Hr Hf.
  split; [now rewrite (json_get_run i w Hr), Hf |].
  split; [now apply json_update_miss |].
  rewrite (json_delete_run i w Hr).
  assert (E : existsb (fun s => Json.id s =? i)
                      (Json.snippets (Json.document w)) = false).
  { apply find_none_all_false in Hf.
    induction Hf as [| x l Hx _ IH]; simpl; [reflexivity |].
    now rewrite Hx. }
  now rewrite E.
Qed.

Lemma json_unknown_id_witness :
  Json.readable Example.json_empty = true
  /\ find (fun s => Json.id s =? 7)
          (Json.snippets (Json.document Example.json_empty)) = None
  /\ Json.delete_snippet 7 Example.json_empty
     = (Returns {| status := "error"; snippet_id := None;
                   message := "Snippet 7 not found" |}, Example.json_empty)
  /\ Json.disk Example.json_empty = Json.Missing.
Proof.
  split; [reflexivity |]. split; [reflexivity |]. split; [| reflexivity].
  exact (proj2 (proj2 (json_unknown_id Example.clock 7 None None None None
                         None Example.json_empty eq_refl eq_refl))).
Defined.



(** ** Failures and the database *)

Section PgFailures.

Variable clk : nat -> timestamp.
Variable encode : string -> Pg.embedding.
Variable cosine_distance : Pg.embedding -> Pg.embedding -> Q.
Variable json_dumps : list Pg.Dict.t -> string.
Variable str_datetime : timestamp -> string.















End PgFailures.



(** ** The embedding model and the pool *)

Section PgModel.

Variable clk : nat -> timestamp.
Variable encode : string -> Pg.embedding.
Variable cosine_distance : Pg.embedding -> Pg.embedding -> Q.
Variable json_dumps : list Pg.Dict.t -> string.
Variable str_datetime : timestamp -> string.

Lemma preserves_ret {A : Type} (P : Pg.world -> Prop) (a : A) :
  preserves P (ret a).
Proof. intros w H. exact H. Qed.

Lemma preserves_bind {A B : Type} (P : Pg.world -> Prop)
    (m : M Pg.world A) (k : A -> M Pg.world B) :
  preserves P m -> (forall a, preserves P (k a)) -> preserves P (bind m k).
Proof.
  intros Hm Hk w H. unfold bind. specialize (Hm w H).
  destruct (m w) as [[a | e] w1]; simpl in *; [| exact Hm].
  now apply Hk.
Qed.

Lemma preserves_try {A : Type} (P : Pg.world -> Prop) (m : M Pg.world A)
    (h : exn -> A) :
  preserves P m -> preserves P (try_except m (fun e => ret (h e))).
Proof.
  intros Hm w H. unfold try_except, ret. specialize (Hm w H).
  now destruct (m w) as [[a | e] w1].
Qed.

Lemma preserves_lift {A : Type} (P : Pg.world -> Prop)
    (inj : A -> Pg.value) (m : M Pg.world A) :
  preserves P m -> preserves P (Pg.lift inj m).
Proof.
  intros Hm. unfold Pg.lift. apply preserves_bind; [exact Hm |].
  intros a. apply preserves_ret.
Qed.

(** The steps of the tools, with the pool in place and the model missing. *)
Lemma missing_get_db : preserves pg_model_missing Pg.get_db.
Proof.
  intros w [Hp Hm]. unfold Pg.get_db, pg_model_missing.
  destruct w as [tbl ser rds rch mav pl mdl]; simpl in *; subst.
  destruct rch; simpl; auto.
Qed.

Lemma missing_encode_text text :
  preserves pg_model_missing (Pg.encode_text encode text).
Proof.
  intros w H. unfold Pg.encode_text. now destruct (Pg.model w).
Qed.

Lemma missing_generate_embeddings ci kl cx :
  preserves pg_model_missing (Pg.generate_embeddings encode ci kl cx).
Proof.
  unfold Pg.generate_embeddings.
  repeat (apply preserves_bind; [apply missing_encode_text | intros ?]).
  apply preserves_ret.
Qed.

Lemma missing_pure {A : Type} (m : M Pg.world A) :
  (forall w, Pg.pool (snd (m w)) = Pg.pool w
             /\ Pg.model (snd (m w)) = Pg.model w) ->
  preserves pg_model_missing m.
Proof.
  intros Hm w [Hp Hmd]. destruct (Hm w) as [H1 H2].
  unfold pg_model_missing. now rewrite H1, H2.
Qed.

Lemma missing_create ci kl tg cx ct :
  preserves pg_model_missing (Pg.create_snippet clk encode ci kl tg cx ct).
Proof.
  unfold Pg.create_snippet, Pg.create_snippet_body. apply preserves_try.
  apply preserves_bind; [apply missing_generate_embeddings | intros e].
  apply preserves_bind; [apply missing_get_db | intros _].
  apply preserves_bind; [| intros i; apply preserves_ret].
  apply missing_pure. intros w. split; reflexivity.
Qed.

Lemma missing_update i ci kl tg cx ct :
  preserves pg_model_missing (Pg.update_snippet clk encode i ci kl tg cx ct).
Proof.
  unfold Pg.update_snippet, Pg.update_snippet_body. apply preserves_try.
  apply preserves_bind; [apply missing_get_db | intros _].
  apply preserves_bind;
    [apply missing_pure; intros w; split; reflexivity | intros [current |]].
  - apply preserves_bind; [| intros _; apply preserves_ret].
    destruct (_ || _ || _).
    + apply preserves_bind; [apply missing_generate_embeddings | intros e].
      apply missing_pure. intros w. split; reflexivity.
    + apply missing_pure. intros w. split; reflexivity.
  - apply preserves_ret.
Qed.

Lemma missing_delete i : preserves pg_model_missing (Pg.delete_snippet i).
Proof.
  unfold Pg.delete_snippet, Pg.delete_snippet_body. apply preserves_try.
  apply preserves_bind; [apply missing_get_db | intros _].
  apply preserves_bind;
    [apply missing_pure; intros w; split; reflexivity | intros r].
  destruct (String.eqb _ _); apply preserves_ret.
Qed.

Lemma missing_search q tg :
  preserves pg_model_missing (Pg.search_snippets q tg).
Proof.
  unfold Pg.search_snippets, Pg.search_snippets_body. apply preserves_try.
  apply preserves_bind; [apply missing_get_db | intros _].
  apply preserves_bind; [| intros ?; apply preserves_ret].
  destruct (truthy_str (dflt "" q) && truthy_opt_list tg);
    [| destruct (truthy_str (dflt "" q)); [| destruct (truthy_opt_list tg)]];
    apply missing_pure; intros w; split; reflexivity.
Qed.

Lemma missing_semantic q li th tg :
  preserves pg_model_missing
            (Pg.semantic_search encode cosine_distance q li th tg).
Proof.
  unfold Pg.semantic_search, Pg.semantic_search_body. apply preserves_try.
  apply preserves_bind; [apply missing_encode_text | intros qe].
  apply preserves_bind; [apply missing_get_db | intros _].
  apply preserves_bind; [| intros ?; apply preserves_ret].
  destruct (truthy_opt_list tg); apply missing_pure; intros w; split;
    reflexivity.
Qed.

Lemma missing_get i : preserves pg_model_missing (Pg.get_snippet i).
Proof.
  unfold Pg.get_snippet, Pg.get_snippet_body. apply preserves_try.
  apply preserves_bind; [apply missing_get_db | intros _].
  apply preserves_bind;
    [apply missing_pure; intros w; split; reflexivity
    | intros ?; apply preserves_ret].
Qed.

Lemma missing_list_tags : preserves pg_model_missing Pg.list_tags.
Proof.
  unfold Pg.list_tags, Pg.list_tags_body. apply preserves_try.
  apply preserves_bind; [apply missing_get_db | intros _].
  apply missing_pure. intros w. split; reflexivity.
Qed.

Lemma missing_export f :
  preserves pg_model_missing
            (Pg.export_snippets json_dumps str_datetime f).
Proof.
  unfold Pg.export_snippets, Pg.export_snippets_body. apply preserves_try.
  apply preserves_bind; [apply missing_get_db | intros _].
  apply preserves_bind;
    [apply missing_pure; intros w; split; reflexivity | intros rows].
  destruct (String.eqb _ _); apply preserves_ret.
Qed.

Lemma missing_find_similar i li :
  preserves pg_model_missing
            (Pg.find_similar_snippets cosine_distance i li).
Proof.
  unfold Pg.find_similar_snippets, Pg.find_similar_snippets_body.
  apply preserves_try.
  apply preserves_bind; [apply missing_get_db | intros _].
  apply preserves_bind;
    [apply missing_pure; intros w; split; reflexivity | intros [ref |]].
  - apply preserves_bind;
      [apply missing_pure; intros w; split; reflexivity
      | intros ?; apply preserves_ret].
  - apply preserves_ret.
Qed.

Lemma missing_run (c : Pg.call) :
  preserves pg_model_missing
            (Pg.run clk encode cosine_distance json_dumps str_datetime c).
Proof.
  destruct c; simpl; apply preserves_lift.
  - apply missing_create.
  - apply missing_search.
  - apply missing_semantic.
  - apply missing_get.
  - apply missing_update.
  - apply missing_delete.
  - apply missing_list_tags.
  - apply missing_export.
  - apply missing_find_similar.
Qed.

Lemma missing_run_calls (calls : list Pg.call) :
  forall w,
    pg_model_missing w ->
    pg_model_missing
      (pg_run_calls clk encode cosine_distance json_dumps str_datetime
                    calls w).
Proof.
  induction calls as [| c calls IH]; intros w H; simpl; [exact H |].
  apply IH. now apply missing_run.
Qed.

Lemma pg_semantic_unloaded query limit thr tags (w : Pg.world) :
  Pg.model w = false ->
  Pg.semantic_search encode cosine_distance query limit thr tags w =
  (Returns (Pg.semantic_search_failed
              (RuntimeError "Embedding model not initialized")), w).
Proof.
  intros Hm. unfold Pg.semantic_search, Pg.semantic_search_body, try_except.
  unfold bind at 1. unfold Pg.encode_text. now rewrite Hm.
Qed.

End PgModel.



(** X12. In the PostgreSQL server the embedding model is loaded only where
    the pool is created. Once the pool exists while the model is not loaded
    (the state left by a first connection during which the model failed to
    load), no sequence of calls of the nine tools loads it: after any such
    sequence the pool still exists, the model is still missing, and
    [create_snippet] and [semantic_search] still answer with
    "Embedding model not initialized". *)
Theorem pg_model_stays_missing (clk : nat -> timestamp)
    (encode : string -> Pg.embedding)
    (cosine_distance : Pg.embedding -> Pg.embedding -> Q)
    (json_dumps : list Pg.Dict.t -> string)
    (str_datetime : timestamp -> string)
    (calls : list Pg.call)
    (ci kl : string) (tg : list string) (cx ct : option string)
    (query : string) (limit : option Z) (thr : option Q)
    (tags : option (list string)) (w : Pg.world) :
  Pg.pool w = true ->
  Pg.model w = false ->
  let w' := pg_run_calls clk encode cosine_distance json_dumps str_datetime
                         calls w in
  Pg.pool w' = true
  /\ Pg.model w' = false
  /\ fst (Pg.create_snippet clk encode ci kl tg cx ct w')
     = Returns {| status := "error"; snippet_id := None;
                  message := "Failed to create snippet: Embedding model not initialized" |}
  /\ fst (Pg.semantic_search encode cosine_distance query limit thr tags w')
     = Returns [Pg.Error
                  "Semantic search failed: Embedding model not initialized"]
  /\ (forall (i : Z) (w0 : Pg.world),
         Pg.pool w0 = false -> Pg.model w0 = false ->
         Pg.reachable w0 = true -> Pg.model_available w0 = false ->
         Pg.pool (snd (Pg.get_snippet i w0)) = true
         /\ Pg.model (snd (Pg.get_snippet i w0)) = false).
Proof.
  intros Hp Hm w'.
  destruct (missing_run_calls clk encode cosine_distance json_dumps
              str_datetime calls w (conj Hp Hm)) as [Hp' Hm'].
  fold w' in Hp', Hm'.
  split; [exact Hp' |]. split; [exact Hm' |].
  split; [| split].
  - now rewrite (pg_create_unloaded clk encode ci kl tg cx ct w' Hm').
  - now rewrite (pg_semantic_unloaded encode cosine_distance query limit thr
                   tags w' Hm').
  - intros i w0 H1 H2 H3 H4.
    destruct w0 as [tbl ser rds rch mav pl mdl]; simpl in *; subst.
    split; reflexivity.
Qed.

Lemma pg_model_stays_missing_witness :
  Pg.pool Sample.pg_stuck = true
  /\ Pg.model Sample.pg_stuck = false
  /\ Pg.model_available Sample.pg_stuck = true
  /\ Pg.model (pg_run_calls Example.clock Example.encode Example.distance
                            Example.json_dumps Example.str_datetime
                            Sample.pg_calls Sample.pg_stuck) = false.
Proof.
  split; [reflexivity |]. split; [reflexivity |]. split; [reflexivity |].
  exact (proj1 (proj2 (pg_model_stays_missing Example.clock Example.encode
                         Example.distance Example.json_dumps
                         Example.str_datetime Sample.pg_calls
                         Example.smith "duty of care" ["tort"] None None
                         "care" None None None Sample.pg_stuck
                         eq_refl eq_refl))).
Defined.

(** ** Searches *)



Lemma lower_empty (s : string) : lower s = "" -> s = "".
Proof. destruct s; [reflexivity | discriminate]. Qed.






(** ** The tags in use *)












(** ** What a write leaves alone *)

Lemma find_snoc_other {A : Type} (p : A -> bool) (l : list A) (x : A) :
  p x = false -> find p (l ++ [x]) = find p l.
Proof.
  intros Hx. rewrite find_app_split. simpl. rewrite Hx.
  now destruct (find p l).
Qed.

Lemma find_map_other {A : Type} (key : A -> Z) (f : A -> A) (i j : Z)
    (l : list A) :
  (forall x, key (f x) = key x) ->
  j <> i ->
  find (fun x => key x =? j) (map (fun x => if key x =? i then f x else x) l)
  = find (fun x => key x =? j) l.
Proof.
  intros Hkey Hji. induction l as [| x l IH]; simpl; [reflexivity |].
  destruct (Z.eqb_spec (key x) i) as [Hi | Hi].
  - rewrite Hkey.
    destruct (Z.eqb_spec (key x) j) as [Hj | Hj]; [congruence | exact IH].
  - destruct (key x =? j); [reflexivity | exact IH].
Qed.

Lemma pg_online_reachable (w : Pg.world) :
  Pg.online w = true -> Pg.reachable w = true.
Proof. unfold Pg.online. now destruct (Pg.reachable w). Qed.

(** X17. A write touches the snippet it names and no other. In the JSON-file
    server, whatever the state of the file, [get_snippet j] answers after
    [update_snippet i] and after [delete_snippet i] as it did before when
    [j] is not [i], and after [create_snippet] when [j] is not the id the
    counter holds. In the PostgreSQL server the same holds when the database
    is reachable, whether or not the write succeeds. *)
Theorem writes_touch_one_id (clk : nat -> timestamp)
    (encode : string -> Pg.embedding) (i j : Z) :
  j <> i ->
  (forall ci kl tg cx ct (w : Json.world),
      fst (Json.get_snippet j
             (snd (Json.update_snippet clk i ci kl tg cx ct w)))
      = fst (Json.get_snippet j w))
  /\ (forall w : Json.world,
         fst (Json.get_snippet j (snd (Json.delete_snippet i w)))
         = fst (Json.get_snippet j w))
  /\ (forall ci kl tg cx ct (w : Json.world),
         Json.next_id (Json.document w) = i ->
         fst (Json.get_snippet j
                (snd (Json.create_snippet clk ci kl tg cx ct w)))
         = fst (Json.get_snippet j w))
  /\ (forall ci kl tg cx ct (w : Pg.world),
         Pg.online w = true ->
         fst (Pg.get_snippet j
                (snd (Pg.update_snippet clk encode i ci kl tg cx ct w)))
         = fst (Pg.get_snippet j w))
  /\ (forall w : Pg.world,
         Pg.online w = true ->
         fst (Pg.get_snippet j (snd (Pg.delete_snippet i w)))
         = fst (Pg.get_snippet j w))
  /\ (forall ci kl tg cx ct (w : Pg.world),
         Pg.online w = true -> Pg.next_serial w = i ->
         fst (Pg.get_snippet j
                (snd (Pg.create_snippet clk encode ci kl tg cx ct w)))
         = fst (Pg.get_snippet j w)).
Proof.
  intros Hji.
  assert (Hneq : forall k, k = i -> (k =? j) = false).
  { intros k ->. apply Z.eqb_neq. congruence. }
  split; [| split; [| split; [| split; [| split]]]].
  - intros ci kl tg cx ct w.
    destruct (json_step clk (fun _ => "") (fun _ => "")
                (Json.UpdateSnippet i ci kl tg cx ct) w)
      as [H | [(? & ? & ? & ? & ? & E & _)
              | [(i' & ci' & kl' & tg' & cx' & ct' & l1 & s & l2
                  & E & Hr & Hl & _ & Hs & H)
                | (? & E & _)]]]; try discriminate E;
      simpl in H; rewrite json_lift_world in H; rewrite H;
      [reflexivity |].
    injection E as <- <- <- <- <- <-.
    rewrite json_get_run by reflexivity. rewrite (json_get_run j w Hr).
    simpl. rewrite Hl. f_equal.
    apply find_replace_other; apply Hneq.
    + now apply Z.eqb_eq.
    + rewrite json_assign_id. now apply Z.eqb_eq.
  - intros w.
    destruct (json_step clk (fun _ => "") (fun _ => "")
                (Json.DeleteSnippet i) w)
      as [H | [(? & ? & ? & ? & ? & E & _)
              | [(? & ? & ? & ? & ? & ? & ? & ? & ? & E & _)
                | (i' & E & Hr & H)]]]; try discriminate E;
      simpl in H; rewrite json_lift_world in H; rewrite H;
      [reflexivity |].
    injection E as <-.
    rewrite json_get_run by reflexivity. rewrite (json_get_run j w Hr).
    simpl. f_equal.
    apply find_filter_keep. intros x Hx. apply Z.eqb_eq in Hx.
    apply negb_true_iff, Z.eqb_neq. congruence.
  - intros ci kl tg cx ct w Hnext.
    destruct (json_step clk (fun _ => "") (fun _ => "")
                (Json.CreateSnippet ci kl tg cx ct) w)
      as [H | [(ci' & kl' & tg' & cx' & ct' & E & Hr & H)
              | [(? & ? & ? & ? & ? & ? & ? & ? & ? & E & _)
                | (? & E & _)]]]; try discriminate E;
      simpl in H; rewrite json_lift_world in H; rewrite H;
      [reflexivity |].
    injection E as <- <- <- <- <-.
    rewrite json_get_run by reflexivity. rewrite (json_get_run j w Hr).
    simpl. f_equal.
    apply find_snoc_other. simpl. now apply Hneq.
  - intros ci kl tg cx ct w Ho.
    pose proof (pg_online_reachable w Ho) as Hrch.
    rewrite (pg_get_run j w Ho).
    rewrite (pg_update_run clk encode i ci kl tg cx ct w Ho).
    destruct (find (fun r => Pg.id r =? i) (Pg.table w)) as [current |].
    + destruct ((truthy_opt_str ci || truthy_opt_str kl || truthy_opt_str cx)
                && negb (Pg.model (pg_connected w))); simpl snd.
      * rewrite pg_get_run by now apply pg_connected_online.
        now rewrite pg_connected_table.
      * rewrite pg_get_run
          by (unfold Pg.online; simpl; now rewrite Hrch).
        simpl. f_equal. f_equal.
        apply (find_map_other Pg.id); [| exact Hji].
        intros x. apply pg_update_set_id.
    + simpl snd. rewrite pg_get_run by now apply pg_connected_online.
      now rewrite pg_connected_table.
  - intros w Ho.
    rewrite (pg_get_run j w Ho), (pg_delete_run i w Ho). simpl snd.
    rewrite pg_get_run
      by (rewrite pg_set_table_online; now apply pg_connected_online).
    simpl. f_equal. f_equal.
    apply find_filter_keep. intros x Hx. apply Z.eqb_eq in Hx.
    apply negb_true_iff, Z.eqb_neq. congruence.
  - intros ci kl tg cx ct w Ho Hnext.
    pose proof (pg_online_reachable w Ho) as Hrch.
    rewrite (pg_get_run j w Ho).
    destruct (Pg.model w) eqn:Hm.
    + rewrite (pg_create_run clk encode ci kl tg cx ct w Hm Ho). simpl snd.
      rewrite pg_get_run by (unfold Pg.online; simpl; now rewrite Hrch).
      simpl. f_equal. f_equal.
      apply find_snoc_other. simpl. now apply Hneq.
    + rewrite (pg_create_unloaded clk encode ci kl tg cx ct w Hm). simpl snd.
      now rewrite (pg_get_run j w Ho).
Qed.

Lemma writes_touch_one_id_witness :
  2 <> 1
  /\ Pg.online Example.pg_two = true
  /\ fst (Json.get_snippet 2 (snd (Json.delete_snippet 1 Example.json_two)))
     = fst (Json.get_snippet 2 Example.json_two)
  /\ fst (Pg.get_snippet 2
            (snd (Pg.update_snippet Example.clock Example.encode 1
                    (Some "Roe v. Wade") None None None None Example.pg_two)))
     = fst (Pg.get_snippet 2 Example.pg_two)
  /\ (exists d, fst (Pg.get_snippet 2 Example.pg_two) = Returns (Some (Pg.Row d))).
Proof.
  assert (H21 : 2 <> 1) by discriminate.
  destruct (writes_touch_one_id Example.clock Example.encode 1 2 H21)
    as (_ & Hd & _ & Hu & _ & _).
  split; [exact H21 |]. split; [reflexivity |].
  split; [apply Hd |].
  split; [apply (Hu (Some "Roe v. Wade") None None None None Example.pg_two
                    eq_refl) |].
  eexists. reflexivity.
Defined.

(** ** Update, then read *)

(** X18. In the JSON-file server, [update_snippet] on the id of a stored
    snippet succeeds, and [get_snippet] then returns that snippet with each
    field given a non-empty value replaced by it ([x or old]), each field left
    out, or given as an empty string or an empty list, as it was, the same
    [created_at], and [updated_at] set to the clock reading of the call. *)
Theorem json_update_then_get (clk : nat -> timestamp)
    (ci kl : option string) (tg : option (list string))
    (cx ct : option string) (w : Json.world) (s : Json.snippet) :
  Json.well_formed w ->
  In s (Json.snippets (Json.document w)) ->
  exists s' w',
    Json.update_snippet clk (Json.id s) ci kl tg cx ct w
    = (Returns {| status := "success"; snippet_id := None;
                  message := "Updated snippet " ++ str_int (Json.id s) |}, w')
    /\ Json.get_snippet (Json.id s) w' = (Returns (Some s'), w')
    /\ Json.id s' = Json.id s
    /\ Json.citation s' = or_else ci (Json.citation s)
    /\ Json.key_language s' = or_else kl (Json.key_language s)
    /\ Json.tags s' = (if truthy_opt_list tg then dflt [] tg else Json.tags s)
    /\ Json.context s' = or_else cx (Json.context s)
    /\ Json.case_type s' = or_else ct (Json.case_type s)
    /\ Json.created_at s' = Json.created_at s
    /\ Json.updated_at s' = clk (Json.reads w).
Proof.
  intros Hwf Hin.
  destruct (json_update_stored clk ci kl tg cx ct w s Hwf Hin)
    as (l1 & l2 & w' & _ & Hup & _ & Hget).
  exists (Json.assign ci kl tg cx ct (clk (Json.reads w)) s), w'.
  split; [exact Hup |]. split; [exact Hget |].
  unfold Json.assign. simpl. repeat (split; [reflexivity |]). reflexivity.
Qed.

Lemma json_update_then_get_witness :
  Json.well_formed Example.json_two
  /\ In Example.json_smith (Json.snippets (Json.document Example.json_two))
  /\ (exists s' w',
        Json.get_snippet 1 w' = (Returns (Some s'), w')
        /\ Json.citation s' = "Smith v. Jones"
        /\ Json.key_language s' = "duty of care"
        /\ Json.tags s' = ["negligence"; "tort"]
        /\ Json.updated_at s' = 4).
Proof.
  assert (Hin : In Example.json_smith
                   (Json.snippets (Json.document Example.json_two)))
    by (left; reflexivity).
  split; [exact example_json_two_well_formed |]. split; [exact Hin |].
  destruct (json_update_then_get Example.clock (Some "Smith v. Jones")
              (Some "") (Some []) None None Example.json_two
              Example.json_smith example_json_two_well_formed Hin)
    as (s' & w' & _ & Hget & _ & Hci & Hkl & Htg & _ & _ & _ & Hup).
  exists s', w'. split; [exact Hget |].
  split; [exact Hci |]. split; [exact Hkl |]. split; [exact Htg | exact Hup].
Defined.



(** ** The order of the file *)

Lemma sorted_snoc {A : Type} (R : A -> A -> Prop) (l : list A) (x : A) :
  StronglySorted R l -> Forall (fun y => R y x) l ->
  StronglySorted R (l ++ [x]).
Proof.
  induction 1 as [| y l Hl IH Hy]; intros Hx; simpl.
  - constructor; constructor.
  - inversion Hx as [| ? ? Hyx Hlx]; subst.
    constructor; [now apply IH |].
    apply Forall_app. split; [exact Hy | now constructor].
Qed.

Lemma sorted_filter {A : Type} (R : A -> A -> Prop) (p : A -> bool)
    (l : list A) :
  StronglySorted R l -> StronglySorted R (filter p l).
Proof.
  induction 1 as [| y l Hl IH Hy]; simpl; [constructor |].
  destruct (p y); [| exact IH].
  constructor; [exact IH |].
  apply Forall_forall. intros z Hz. apply filter_In in Hz as [Hz _].
  rewrite Forall_forall in Hy. now apply Hy.
Qed.

Lemma sorted_replace {A : Type} (key : A -> Z) (l1 l2 : list A) (x x' : A) :
  key x' = key x ->
  StronglySorted (fun a b => key a <= key b) (l1 ++ x :: l2) ->
  StronglySorted (fun a b => key a <= key b) (l1 ++ x' :: l2).
Proof.
  intros Hk. induction l1 as [| y l1 IH]; simpl; intros H;
    inversion H as [| ? ? Hs Hf]; subst.
  - constructor; [exact Hs |]. now rewrite Hk.
  - constructor; [now apply IH |].
    apply Forall_app in Hf as [Hf1 Hf2].
    inversion Hf2 as [| ? ? Hyx Hf3]; subst.
    apply Forall_app. split; [exact Hf1 |].
    constructor; [now rewrite Hk | exact Hf3].
Qed.

Section JsonOrder.

Variable clk : nat -> timestamp.
Variable isoformat : timestamp -> string.
Variable json_dumps : list Json.snippet -> string.
Hypothesis clk_monotone : forall n, clk n <= clk (S n).

Lemma json_call_keeps_chronological (c : Json.call) (w : Json.world) :
  json_timely clk w -> json_chronological w ->
  json_chronological (snd (Json.run clk isoformat json_dumps c w)).
Proof.
  intros Ht Hc.
  destruct (json_step clk isoformat json_dumps c w)
    as [-> | [(ci & kl & tg & cx & ct & -> & Hr & ->)
           | [(i & ci & kl & tg & cx & ct & l1 & s & l2 & -> & Hr & Hl & Hl1
               & Hs & ->)
             | (i & -> & Hr & ->)]]];
    unfold json_chronological, json_timely in *.
  - exact Hc.
  - rewrite json_document_stored. simpl.
    apply sorted_snoc; [exact Hc |].
    eapply Forall_impl; [| exact Ht]. simpl. intros s [H1 H2]. lia.
  - rewrite json_document_stored. simpl. rewrite Hl in Hc.
    now apply (sorted_replace Json.created_at l1 l2 s).
  - rewrite json_document_stored. simpl. now apply sorted_filter.
Qed.

Lemma json_calls_keep_chronological (calls : list Json.call) :
  forall w,
    json_timely clk w -> json_chronological w ->
    json_chronological (json_run_calls clk isoformat json_dumps calls w).
Proof.
  induction calls as [| c calls IH]; intros w Ht Hc; simpl; [exact Hc |].
  apply IH.
  - now apply json_call_keeps_timely.
  - now apply json_call_keeps_chronological.
Qed.

End JsonOrder.

(** X20. The file of the JSON-file server is a chronological log. With a
    clock that never runs backwards, along every sequence of tool calls the
    snippets stay stored in the order of their creation times; so
    [search_snippets] returns its matches oldest first, whatever the
    criteria, and [export_snippets] writes the snippets oldest first, as
    text when the format is ["text"] and as JSON for every other format. *)
Theorem json_file_is_chronological (clk : nat -> timestamp)
    (isoformat : timestamp -> string)
    (json_dumps : list Json.snippet -> string)
    (clk_monotone : forall n, clk n <= clk (S n))
    (calls : list Json.call) (w : Json.world) :
  Json.well_formed w ->
  json_timely clk w ->
  json_chronological w ->
  json_chronological (json_run_calls clk isoformat json_dumps calls w)
  /\ (forall q tg,
        exists l,
          fst (Json.search_snippets q tg
                 (json_run_calls clk isoformat json_dumps calls w))
          = Returns l
          /\ StronglySorted
               (fun a b => Json.created_at a <= Json.created_at b) l)
  /\ (forall f,
        fst (Json.export_snippets isoformat json_dumps f
               (json_run_calls clk isoformat json_dumps calls w))
        = Returns
            (if String.eqb (dflt "json" f) "text"
             then join ""
                    (map (Json.export_text isoformat)
                       (Json.snippets
                          (Json.document
                             (json_run_calls clk isoformat json_dumps calls
                                             w))))
             else json_dumps
                    (Json.snippets
                       (Json.document
                          (json_run_calls clk isoformat json_dumps calls
                                          w))))).
Proof.
  intros Hwf Ht Hc.
  pose proof (json_calls_keep_chronological clk isoformat json_dumps
                clk_monotone calls w Ht Hc) as Hc'.
  destruct (json_calls_keep_well_formed clk isoformat json_dumps calls w Hwf)
    as ((Hr' & _) & _).
  split; [exact Hc' |]. split.
  - intros q tg. eexists. rewrite (json_search_run q tg _ Hr'). simpl.
    split; [reflexivity |]. now apply sorted_filter.
  - intros f. now rewrite (json_export_run isoformat json_dumps f _ Hr').
Qed.

Lemma json_file_is_chronological_witness :
  (forall n, Example.clock n <= Example.clock (S n))
  /\ Json.well_formed Example.json_empty
  /\ json_timely Example.clock Example.json_empty
  /\ json_chronological Example.json_empty
  /\ json_chronological
       (json_run_calls Example.clock Sample.isoformat Sample.json_dumps
                       Sample.calls Example.json_empty)
  /\ map Json.id
       (Json.snippets
          (Json.document
             (json_run_calls Example.clock Sample.isoformat Sample.json_dumps
                             Sample.calls Example.json_empty))) = [1].
Proof.
  assert (Ht : json_timely Example.clock Example.json_empty) by constructor.
  assert (Hc : json_chronological Example.json_empty) by constructor.
  split; [exact example_clock_monotone |].
  split; [exact example_json_empty_well_formed |].
  split; [exact Ht |]. split; [exact Hc |].
  split; [| reflexivity].
  exact (proj1 (json_file_is_chronological Example.clock Sample.isoformat
                  Sample.json_dumps example_clock_monotone Sample.calls
                  Example.json_empty example_json_empty_well_formed Ht Hc)).
Defined.

Lemma by_created_total (x y : Pg.row) :
  Pg.by_created x y = true \/ Pg.by_created y x = true.
Proof.
  unfold Pg.by_created.
  destruct (Z.leb_spec (Pg.created_at x) (Pg.created_at y)); [now left |].
  right. apply Z.leb_le. lia.
Qed.

Lemma by_created_trans (x y z : Pg.row) :
  Pg.by_created x y = true -> Pg.by_created y z = true ->
  Pg.by_created x z = true.
Proof. unfold Pg.by_created. rewrite !Z.leb_le. lia. Qed.

Lemma pg_export_run (json_dumps : list Pg.Dict.t -> string)
    (str_datetime : timestamp -> string) (f : option string) (w : Pg.world) :
  Pg.online w = true ->
  Pg.export_snippets json_dumps str_datetime f w
  = (Returns
       (if String.eqb (dflt "json" f) "text"
        then join "" (map (Pg.export_text str_datetime)
                          (Pg.order_by Pg.by_created (Pg.table w)))
        else json_dumps (map Pg.columns8
                             (Pg.order_by Pg.by_created (Pg.table w)))),
     pg_connected w).
Proof.
  intros H. unfold Pg.export_snippets, Pg.export_snippets_body, try_except.
  unfold bind at 1. rewrite (pg_get_db_online w H).
  unfold bind, Pg.fetch. rewrite pg_connected_table.
  rewrite filter_all by reflexivity.
  now destruct (String.eqb (dflt "json" f) "text").
Qed.

(** X21. With the database reachable, [export_snippets] of the PostgreSQL
    server writes every row of the table once, in the order of [created_at],
    oldest first: as text blocks when the format is ["text"], and as JSON for
    every other format, the default included. *)
Theorem pg_export_is_chronological
    (json_dumps : list Pg.Dict.t -> string)
    (str_datetime : timestamp -> string) (w : Pg.world) :
  Pg.online w = true ->
  exists rows,
    Permutation rows (Pg.table w)
    /\ StronglySorted (fun a b => Pg.created_at a <= Pg.created_at b) rows
    /\ fst (Pg.export_snippets json_dumps str_datetime (Some "text") w)
       = Returns (join "" (map (Pg.export_text str_datetime) rows))
    /\ (forall f,
          f <> Some "text" ->
          fst (Pg.export_snippets json_dumps str_datetime f w)
          = Returns (json_dumps (map Pg.columns8 rows))).
Proof.
  intros Ho. exists (Pg.order_by Pg.by_created (Pg.table w)).
  split; [symmetry; apply order_by_permutation |].
  split.
  { apply strongly_sorted_weaken
      with (R := fun a b => Pg.by_created a b = true).
    - unfold Pg.by_created. intros a b H. now apply Z.leb_le.
    - apply order_by_sorted; [apply by_created_total | apply by_created_trans]. }
  split; [now rewrite (pg_export_run json_dumps str_datetime _ w Ho) |].
  intros f Hf. rewrite (pg_export_run json_dumps str_datetime f w Ho).
  destruct (String.eqb_spec (dflt "json" f) "text") as [E | E];
    [| reflexivity].
  destruct f as [s |]; simpl in E; [congruence | discriminate].
Qed.

Lemma pg_export_is_chronological_witness :
  Pg.online Example.pg_two = true
  /\ Some "csv" <> Some "text"
  /\ fst (Pg.export_snippets Example.json_dumps Example.str_datetime
            (Some "csv") Example.pg_two)
     = Returns "[1, 2]".
Proof.
  assert (Hf : Some "csv" <> Some "text") by discriminate.
  split; [reflexivity |]. split; [exact Hf |].
  destruct (pg_export_is_chronological Example.json_dumps
              Example.str_datetime Example.pg_two eq_refl)
    as (rows & _ & _ & _ & Hjson).
  rewrite (Hjson (Some "csv") Hf).
  rewrite <- (Hjson None); [reflexivity | discriminate].
Defined.

(** ** Wild cards in the query *)

Lemma repeat_percent_snoc (n : nat) :
  repeat_str "%" n ++ "%" = repeat_str "%" (S n).
Proof. induction n as [| n IH]; simpl in *; [reflexivity | now rewrite IH]. Qed.

Lemma lower_repeat_percent (n : nat) :
  lower (repeat_str "%" n) = repeat_str "%" n.
Proof. induction n as [| n IH]; simpl in *; [reflexivity | now rewrite IH]. Qed.

Lemma like_percents (n : nat) (s : string) :
  Pg.like (repeat_str "%" (S n)) s = true.
Proof.
  revert s. induction n as [| n IH]; intros s.
  - apply like_percent_alone.
  - change (repeat_str "%" (S (S n)))
      with (String "%" (repeat_str "%" (S n))).
    rewrite like_any_run, IH. reflexivity.
Qed.

Lemma like_one_character (s : string) :
  Pg.like "%_%" s = truthy_str s.
Proof.
  destruct s as [| c s]; [reflexivity |].
  rewrite like_any_run.
  change (Pg.like "_%" (String c s)) with (Pg.like "%" s).
  now rewrite like_percent_alone.
Qed.

Lemma truthy_str_of_lower (s : string) : truthy_str (lower s) = truthy_str s.
Proof. now destruct s. Qed.

(** X22. The PostgreSQL server hands the query to [ILIKE] as it is, so the
    characters [%] and [_] in a query are wild cards. With the database
    reachable and no tags: a query made of [%] signs only returns every row
    of the table, and the query ["_"] returns exactly the rows whose
    citation, key language or context is not empty. *)
Theorem pg_query_wild_cards (tg : option (list string)) (w : Pg.world) :
  Pg.online w = true ->
  truthy_opt_list tg = false ->
  (forall n,
      exists rows,
        fst (Pg.search_snippets (Some (repeat_str "%" (S n))) tg w)
        = Returns (map (fun r => Pg.Row (Pg.columns8 r)) rows)
        /\ Permutation rows (Pg.table w))
  /\ (exists rows,
        fst (Pg.search_snippets (Some "_") tg w)
        = Returns (map (fun r => Pg.Row (Pg.columns8 r)) rows)
        /\ forall r,
             In r rows <->
             In r (Pg.table w)
             /\ (Pg.citation r <> "" \/ Pg.key_language r <> ""
                 \/ Pg.context r <> "")).
Proof.
  intros Ho Htg. split.
  - intros n. eexists.
    split; [now rewrite (pg_search_run (Some (repeat_str "%" (S n))) tg w Ho) |].
    rewrite filter_keeps_all; [symmetry; apply order_by_permutation |].
    apply Forall_forall. intros r _. unfold pg_search_cond. rewrite Htg.
    change (dflt "" (Some (repeat_str "%" (S n))))
      with (repeat_str "%" (S n)).
    change (truthy_str (repeat_str "%" (S n))) with true.
    cbn [andb]. unfold Pg.text_cond, Pg.ilike.
    rewrite lower_app, lower_app, lower_repeat_percent.
    change (lower "%") with "%".
    rewrite repeat_percent_snoc.
    change ("%" ++ repeat_str "%" (S (S n)))
      with (repeat_str "%" (S (S (S n)))).
    now rewrite like_percents.
  - eexists. split; [now rewrite (pg_search_run (Some "_") tg w Ho) |].
    intros r. rewrite order_by_In, filter_In.
    unfold pg_search_cond. rewrite Htg.
    change (dflt "" (Some "_")) with "_".
    change (truthy_str "_") with true. cbn [andb].
    unfold Pg.text_cond, Pg.ilike. change (lower ("%" ++ "_" ++ "%")) with "%_%".
    rewrite !like_one_character, !truthy_str_of_lower.
    assert (Hne : forall s, truthy_str s = true <-> s <> "").
    { intros [| c s]; simpl; split; intros H;
        try discriminate; try reflexivity; now elim H. }
    rewrite !orb_true_iff, !Hne. tauto.
Qed.

Lemma pg_query_wild_cards_witness :
  Pg.online Example.pg_two = true
  /\ truthy_opt_list (@None (list string)) = false
  /\ (exists rows,
        fst (Pg.search_snippets (Some "%%") None Example.pg_two)
        = Returns (map (fun r => Pg.Row (Pg.columns8 r)) rows)
        /\ Permutation rows (Pg.table Example.pg_two)).
Proof.
  split; [reflexivity |]. split; [reflexivity |].
  exact (proj1 (pg_query_wild_cards None Example.pg_two eq_refl eq_refl) 1%nat).
Defined.

(** ** The text export as a log *)






